(** * Task manager: the category routes, the task schema and the view logic

    A shallow embedding of
    - [server/routes/categories.js] (the three category routes),
    - the Mongoose schemas of [Task] and [Category],
    - [frontend/src/services/api.ts] (the HTTP client), and
    - the view logic of [App]: [filteredTasks], [handleAddTask],
      [saveEditedTask] and [getDueDateStatus],
    followed by the properties of the specification that concern them.

    Strings are sequences of code units in the range U+0000..U+00FF; on that
    range [toLowerCase], [trim] and [includes] below agree with the
    ECMAScript built-ins of the same names. *)

From Stdlib Require Import ZArith QArith List String Ascii Bool Lia.
From Stdlib Require Import Sorting.Sorted Sorting.Permutation.
Import ListNotations.
Open Scope string_scope.
Open Scope Z_scope.

(* ================================================================= *)
(** ** String.prototype *)

Module JsString.

(** WhiteSpace and LineTerminator code points below U+0100:
    TAB, LF, VT, FF, CR, SP and NBSP. *)
Definition isWhiteSpace (c : ascii) : bool :=
  let n := N_of_ascii c in
  (((9 <=? n) && (n <=? 13)) || (n =? 32) || (n =? 160))%N.

(** Code points below U+0100 that have a lowercase mapping: A-Z and
    U+00C0..U+00DE without the multiplication sign U+00D7. *)
Definition isUpperCase (c : ascii) : bool :=
  let n := N_of_ascii c in
  (((65 <=? n) && (n <=? 90)) ||
   ((192 <=? n) && (n <=? 222) && negb (n =? 215)))%N.

Definition toLowerCaseChar (c : ascii) : ascii :=
  if isUpperCase c then ascii_of_N (N_of_ascii c + 32) else c.

Fixpoint toLowerCase (s : string) : string :=
  match s with
  | EmptyString => EmptyString
  | String c s' => String (toLowerCaseChar c) (toLowerCase s')
  end.

Fixpoint trimStart (s : string) : string :=
  match s with
  | EmptyString => EmptyString
  | String c s' => if isWhiteSpace c then trimStart s' else s
  end.

Fixpoint trimEnd (s : string) : string :=
  match s with
  | EmptyString => EmptyString
  | String c s' =>
      match trimEnd s' with
      | EmptyString => if isWhiteSpace c then EmptyString else String c EmptyString
      | t => String c t
      end
  end.

Definition trim (s : string) : string := trimEnd (trimStart s).

(** [startsWith s p]: [p] is a prefix of [s]. *)
Fixpoint startsWith (s p : string) : bool :=
  match p, s with
  | EmptyString, _ => true
  | String _ _, EmptyString => false
  | String a p', String b s' => Ascii.eqb a b && startsWith s' p'
  end.

(** [includes s needle]: [needle] occurs in [s] at some position. *)
Fixpoint includes (s needle : string) : bool :=
  startsWith s needle ||
  match s with
  | EmptyString => false
  | String _ s' => includes s' needle
  end.

(** Truthiness of a string: only the empty string is falsy. *)
Definition truthy (s : string) : bool :=
  match s with EmptyString => false | _ => true end.

End JsString.

(* ================================================================= *)
(** ** Date *)

Module JsDate.

Definition msPerDay : Z := 86400000.

(** The time value of a Date object: milliseconds since the epoch, or NaN
    for an invalid date. *)
Inductive Date : Set :=
| InvalidDate
| DateAt (tv : Z).

Definition maxTimeValue : Z := 8640000000000000.

Definition TimeClip (t : Z) : Date :=
  if Z.abs t <=? maxTimeValue then DateAt t else InvalidDate.

(** A number as the view code uses it: an exact rational, or NaN. The
    quotients computed below are integers of magnitude below 2^54 divided by
    [msPerDay]; their comparisons with 0 and 2 come out the same on IEEE
    doubles, since any such quotient that is not 0 (resp. 2) is further than
    1e-8 away from it. *)
Inductive Num : Set :=
| NaN
| Fin (q : Q).

Definition getTime (d : Date) : Num :=
  match d with
  | InvalidDate => NaN
  | DateAt t => Fin (inject_Z t)
  end.

Definition sub (a b : Num) : Num :=
  match a, b with
  | Fin x, Fin y => Fin (x - y)
  | _, _ => NaN
  end.

(** The divisor is never 0 in the code below; a zero divisor is given NaN. *)
Definition div (a b : Num) : Num :=
  match a, b with
  | Fin x, Fin y => if Qeq_bool y 0 then NaN else Fin (x / y)
  | _, _ => NaN
  end.

(** Comparisons; each is false as soon as an operand is NaN. *)
Definition lt (a b : Num) : bool :=
  match a, b with
  | Fin x, Fin y => match x ?= y with Lt => true | _ => false end
  | _, _ => false
  end%Q.

Definition le (a b : Num) : bool :=
  match a, b with
  | Fin x, Fin y => match x ?= y with Gt => false | _ => true end
  | _, _ => false
  end%Q.

Definition strictEq (a b : Num) : bool :=
  match a, b with
  | Fin x, Fin y => match x ?= y with Eq => true | _ => false end
  | _, _ => false
  end%Q.

Definition ofZ (z : Z) : Num := Fin (inject_Z z).

Section Zone.

(** The local time zone adjustment of the host, in milliseconds:
    [LocalTZA t true] is the offset in force at the UTC time value [t],
    [LocalTZA t false] the one in force at the local time value [t]. *)
Variable LocalTZA : Z -> bool -> Z.

Definition LocalTime (t : Z) : Z := t + LocalTZA t true.
Definition UTC (t : Z) : Z := t - LocalTZA t false.
Definition Day (t : Z) : Z := t / msPerDay.
Definition MakeTime (h m s ms : Z) : Z := ((h * 60 + m) * 60 + s) * 1000 + ms.
Definition MakeDate (day time : Z) : Z := day * msPerDay + time.

(** [d.setHours(0, 0, 0, 0)]: midnight, local time, of the local day of [d]. *)
Definition setHours0 (d : Date) : Date :=
  match d with
  | InvalidDate => InvalidDate
  | DateAt t => TimeClip (UTC (MakeDate (Day (LocalTime t)) (MakeTime 0 0 0 0)))
  end.

End Zone.

(** Days from 1970-01-01 to the given day of the proleptic Gregorian
    calendar (month 1..12), and the time value of a wall-clock reading taken
    as UTC. *)
Definition daysFromCivil (y m d : Z) : Z :=
  let y' := if m <=? 2 then y - 1 else y in
  let era := y' / 400 in
  let yoe := y' - era * 400 in
  let mp := (m + 9) mod 12 in
  let doy := (153 * mp + 2) / 5 + d - 1 in
  let doe := yoe * 365 + yoe / 4 - yoe / 100 + doy in
  era * 146097 + doe - 719468.

Definition civil (y m d h mi : Z) : Z :=
  daysFromCivil y m d * msPerDay + MakeTime h mi 0 0.

(** A host whose offset never changes. *)
Definition fixedZone (offset : Z) : Z -> bool -> Z := fun _ _ => offset.

(** America/New_York during 2024: UTC-5, and UTC-4 from 2024-03-10 02:00
    local (07:00 UTC) until 2024-11-03 02:00 local (06:00 UTC). *)
Definition newYork2024 : Z -> bool -> Z :=
  fun t isUTC =>
    let h := 3600000 in
    let inDst :=
      if isUTC
      then (civil 2024 3 10 7 0 <=? t) && (t <? civil 2024 11 3 6 0)
      else (civil 2024 3 10 3 0 <=? t) && (t <? civil 2024 11 3 2 0) in
    if inDst then -4 * h else -5 * h.

End JsDate.

(* ================================================================= *)
(** ** The documents: Mongoose schemas and the client's interfaces *)

#[local] Set Warnings "-register-all".

(** Values that travel in a response body or are read off one. A date is
    transmitted as its ISO-8601 string; [JDate d] stands for that string and
    [new Date] of it gives [d] back. *)
Inductive JsValue : Type :=
| JUndefined
| JNull
| JBool (b : bool)
| JNumber (z : Z)
| JString (s : string)
| JDate (d : JsDate.Date)
| JArray (items : list JsValue)
| JObject (fields : list (string * JsValue)).

(** Property read [o.key]. *)
Fixpoint lookup (key : string) (fields : list (string * JsValue)) : JsValue :=
  match fields with
  | [] => JUndefined
  | (k, v) :: rest => if String.eqb k key then v else lookup key rest
  end.

Definition prop (o : JsValue) (key : string) : JsValue :=
  match o with
  | JObject fields => lookup key fields
  | _ => JUndefined
  end.

Definition keys (o : JsValue) : list string :=
  match o with
  | JObject fields => map fst fields
  | _ => []
  end.

(** What the route handlers below catch: a [TypeError] of the engine, a
    validation error of Mongoose, a duplicate-key error of the driver. *)
Inductive Exception : Set :=
| TypeError                          (* a method called on undefined *)
| ValidatorError (path : string)     (* a required path is missing or empty *)
| DuplicateKey (index : string).     (* E11000 on a unique index *)

Definition errorMessage (e : Exception) : string :=
  match e with
  | TypeError => "Cannot read properties of undefined (reading 'toLowerCase')"
  | ValidatorError path => "Validation failed: Path `" ++ path ++ "` is required."
  | DuplicateKey index => "E11000 duplicate key error index: " ++ index
  end.

(** The clock and the identifier generator, as one request sees them. *)
Record Env : Set := mkEnv {
  now : Z;
  objectId : string
}.

Module Task.

Inductive Priority : Set := low | medium | high.

(** [interface Task] of api.ts; the fields are those of [taskSchema]. *)
Record t : Set := mk {
  _id : string;
  title : string;
  description : string;
  completed : bool;
  priority : Priority;
  dueDate : option JsDate.Date;
  createdAt : JsDate.Date;
  category : string
}.

(** [taskSchema]: [title] and [description] have [trim: true]. *)
Definition setTitle (v : string) : string := JsString.trim v.
Definition setDescription (v : string) : string := JsString.trim v.

(** [taskSchema]: [title] has [required: true]; a required string path
    rejects the empty string. *)
Definition validate (doc : t) : option Exception :=
  if JsString.truthy (title doc) then None else Some (ValidatorError "title").

End Task.

Module CreateTaskDto.

(** [interface CreateTaskDto] of api.ts. *)
Record t : Set := mk {
  title : string;
  description : string;
  completed : bool;
  priority : Task.Priority;
  dueDate : option JsDate.Date;
  category : string
}.

End CreateTaskDto.

Module PartialTaskDto.

(** [Partial<CreateTaskDto>]: every field may be left out. *)
Record t : Set := mk {
  title : option string;
  description : option string;
  completed : option bool;
  priority : option Task.Priority;
  dueDate : option (option JsDate.Date);
  category : option string
}.

Definition empty : t := mk None None None None None None.

End PartialTaskDto.

Module Category.

(** A document of [categorySchema]. *)
Record t : Set := mk {
  _id : string;
  name : string;
  createdAt : JsDate.Date
}.

(** [categorySchema]: [name] has [trim: true] and [lowercase: true]. *)
Definition setName (v : string) : string :=
  JsString.trim (JsString.toLowerCase v).

(** [categorySchema]: [name] has [required: true]. *)
Definition validate (doc : t) : option Exception :=
  if JsString.truthy (name doc) then None else Some (ValidatorError "name").

(** [new Category({ name: v })]: the setters run, [createdAt] defaults to
    [Date.now] and the driver supplies [_id]. *)
Definition new (env : Env) (v : string) : t :=
  mk (objectId env) (setName v) (JsDate.DateAt (now env)).

(** The document as [res.json] sends it; [__v] is Mongoose's version key. *)
Definition toJSON (doc : t) : JsValue :=
  JObject [ ("_id", JString (_id doc));
            ("name", JString (name doc));
            ("createdAt", JDate (createdAt doc));
            ("__v", JNumber 0) ].

End Category.

(* ================================================================= *)
(** ** The document store *)

(** The two collections. The store never fails here: the 500 answers of the
    routes, which take a lost connection, are left out. *)

Module Store.

Record Db : Set := mkDb {
  tasks : list Task.t;
  categories : list Category.t
}.

Definition withCategories (db : Db) (l : list Category.t) : Db :=
  mkDb (tasks db) l.

Definition withTasks (db : Db) (l : list Task.t) : Db :=
  mkDb l (categories db).

Section Lists.
Context {A : Type}.

(** Remove, resp. replace, the first element that satisfies [p]. *)
Fixpoint removeFirst (p : A -> bool) (l : list A) : list A :=
  match l with
  | [] => []
  | x :: l' => if p x then l' else x :: removeFirst p l'
  end.

Fixpoint replaceFirst (p : A -> bool) (y : A) (l : list A) : list A :=
  match l with
  | [] => []
  | x :: l' => if p x then y :: l' else x :: replaceFirst p y l'
  end.

End Lists.

Section Queries.

(** Whether the installed Mongoose applies a path's setters to a query
    filter on that path (it does from version 5 on). *)
Variable runSettersOnQuery : bool.

Definition castNameFilter (v : string) : string :=
  if runSettersOnQuery then Category.setName v else v.

(** [Category.findOne({ name: v })]. *)
Definition Category_findOne (db : Db) (v : string) : option Category.t :=
  find (fun c => String.eqb (Category.name c) (castNameFilter v)) (categories db).

End Queries.

(** [doc.save()] of a new category: validation, then the insert, which the
    unique index on [name] rejects when the name is already stored. *)
Definition Category_save (db : Db) (doc : Category.t)
  : Exception + (Db * Category.t) :=
  match Category.validate doc with
  | Some e => inl e
  | None =>
      if existsb (fun c => String.eqb (Category.name c) (Category.name doc))
                 (categories db)
      then inl (DuplicateKey "name_1")
      else inr (withCategories db (categories db ++ [doc]), doc)
  end.

(** [Category.findByIdAndDelete(id)]. *)
Definition Category_findByIdAndDelete (db : Db) (id : string) : Db :=
  withCategories db
    (removeFirst (fun c => String.eqb (Category._id c) id) (categories db)).

(** [Category.find().sort({ name: 1 })]: ascending by [name], strings
    compared code unit by code unit. *)
Fixpoint insertByName (c : Category.t) (l : list Category.t) : list Category.t :=
  match l with
  | [] => [c]
  | d :: l' =>
      if String.leb (Category.name c) (Category.name d)
      then c :: l
      else d :: insertByName c l'
  end.

Fixpoint sortByName (l : list Category.t) : list Category.t :=
  match l with
  | [] => []
  | c :: l' => insertByName c (sortByName l')
  end.

Definition Category_find_sort_name (db : Db) : list Category.t :=
  sortByName (categories db).

End Store.

(* ================================================================= *)
(** ** server/routes/categories.js *)

Module CategoryRoutes.

Import Store.

Record Response : Type := mkResponse {
  status : Z;
  body : JsValue
}.

Definition message (text : string) : JsValue :=
  JObject [("message", JString text)].

(** [router.get('/')] *)
Definition get (db : Db) : Db * Response :=
  let categories := Category_find_sort_name db in
  (db, mkResponse 200 (JArray (map (fun category => JString (Category.name category)) categories))).

Section Routes.
Variable runSettersOnQuery : bool.

(** [router.post('/')]; [name] is [req.body.name], [None] when the body has
    no string there. *)
Definition post (env : Env) (db : Db) (name : option string) : Db * Response :=
  match name with
  | None => (db, mkResponse 400 (message (errorMessage TypeError)))
  | Some n =>
      match Category_findOne runSettersOnQuery db (JsString.toLowerCase n) with
      | Some _ => (db, mkResponse 400 (message "Category already exists"))
      | None =>
          let category := Category.new env (JsString.toLowerCase n) in
          match Category_save db category with
          | inl err => (db, mkResponse 400 (message (errorMessage err)))
          | inr (db', newCategory) =>
              (db', mkResponse 201 (Category.toJSON newCategory))
          end
      end
  end.

(** [router.delete('/:name')] *)
Definition delete (db : Db) (name : string) : Db * Response :=
  match Category_findOne runSettersOnQuery db (JsString.toLowerCase name) with
  | None => (db, mkResponse 404 (message "Category not found"))
  | Some category =>
      (Category_findByIdAndDelete db (Category._id category),
       mkResponse 200 (message "Category deleted"))
  end.

(** One request to the category service. *)
Inductive Request : Type :=
| GET
| POST (env : Env) (name : option string)
| DELETE (name : string).

Definition handle (db : Db) (r : Request) : Db * Response :=
  match r with
  | GET => get db
  | POST env name => post env db name
  | DELETE name => delete db name
  end.

(** The stores the category service can bring about, starting with no
    category at all. *)
Inductive reachable : Db -> Prop :=
| reachable_init (ts : list Task.t) : reachable (mkDb ts [])
| reachable_step (db : Db) (r : Request) :
    reachable db -> reachable (fst (handle db r)).

End Routes.

End CategoryRoutes.

(* ================================================================= *)
(** ** The task service *)

Module TaskService.

Import Store.

Inductive ServiceError : Set :=
| ValidationError
| NotFoundError.

(** [new Task(candidate)] under [taskSchema]: the setters of [title] and
    [description] run, [createdAt] defaults to [Date.now]. *)
Definition newTask (env : Env) (candidate : CreateTaskDto.t) : Task.t :=
  Task.mk (objectId env)
          (Task.setTitle (CreateTaskDto.title candidate))
          (Task.setDescription (CreateTaskDto.description candidate))
          (CreateTaskDto.completed candidate)
          (CreateTaskDto.priority candidate)
          (CreateTaskDto.dueDate candidate)
          (JsDate.DateAt (now env))
          (CreateTaskDto.category candidate).

(** A partial field set applied to a stored task under [taskSchema]: a
    supplied field goes through its setter, a field left out keeps its
    value; the field set has no [_id] and no [createdAt]. *)
Definition applyFields (patch : PartialTaskDto.t) (old : Task.t) : Task.t :=
  Task.mk (Task._id old)
          (match PartialTaskDto.title patch with
           | Some v => Task.setTitle v | None => Task.title old end)
          (match PartialTaskDto.description patch with
           | Some v => Task.setDescription v | None => Task.description old end)
          (match PartialTaskDto.completed patch with
           | Some v => v | None => Task.completed old end)
          (match PartialTaskDto.priority patch with
           | Some v => v | None => Task.priority old end)
          (match PartialTaskDto.dueDate patch with
           | Some v => v | None => Task.dueDate old end)
          (Task.createdAt old)
          (match PartialTaskDto.category patch with
           | Some v => v | None => Task.category old end).

Definition hasId (id : string) (task : Task.t) : bool :=
  String.eqb (Task._id task) id.

(** Modelled from the spec: the Create operation of the Task Service
    (server/routes/tasks.js is not among the sources). "Fails with
    ValidationError if title is empty after trimming. On success, assigns id
    and createdAt, persists, returns the full record." The trimming and the
    emptiness test are those of [taskSchema]. *)
Definition create (env : Env) (db : Db) (candidate : CreateTaskDto.t)
  : Db * (ServiceError + Task.t) :=
  let doc := newTask env candidate in
  match Task.validate doc with
  | Some _ => (db, inl ValidationError)
  | None => (withTasks db (tasks db ++ [doc]), inr doc)
  end.

(** Modelled from the spec: the Update operation of the Task Service
    (server/routes/tasks.js is not among the sources). "Fails with
    NotFoundError if the identifier does not exist. Applies only the
    supplied fields (unsupplied fields unchanged); id and createdAt are
    never mutable. Returns the updated record"; "creation/update must reject
    empty titles". Fields are stored as [taskSchema] stores them. *)
Definition update (db : Db) (id : string) (patch : PartialTaskDto.t)
  : Db * (ServiceError + Task.t) :=
  match find (hasId id) (tasks db) with
  | None => (db, inl NotFoundError)
  | Some old =>
      let doc := applyFields patch old in
      match Task.validate doc with
      | Some _ => (db, inl ValidationError)
      | None => (withTasks db (replaceFirst (hasId id) doc (tasks db)), inr doc)
      end
  end.

End TaskService.

(* ================================================================= *)
(** ** frontend/src/services/api.ts *)

Module Api.

Import Store.

(** The outcome of an awaited axios call: the value, or the rejection that
    axios raises for a status outside 2xx. *)
Inductive Result (A : Type) : Type :=
| Ok (a : A)
| Throw (status : Z).
Arguments Ok {A} a.
Arguments Throw {A} status.

(** [dueDate: data.dueDate ? new Date(data.dueDate) : null] and
    [createdAt: new Date(data.createdAt)] over the rest of the record. *)
Definition withDates (data : Task.t) : Task.t :=
  Task.mk (Task._id data) (Task.title data) (Task.description data)
          (Task.completed data) (Task.priority data)
          (match Task.dueDate data with Some d => Some d | None => None end)
          (Task.createdAt data)
          (Task.category data).

Definition ofService (r : TaskService.ServiceError + Task.t) : Result Task.t :=
  match r with
  | inl TaskService.ValidationError => Throw 400
  | inl TaskService.NotFoundError => Throw 404
  | inr data => Ok (withDates data)
  end.

Definition createTask (env : Env) (db : Db) (task : CreateTaskDto.t)
  : Db * Result Task.t :=
  let (db', r) := TaskService.create env db task in (db', ofService r).

Definition updateTask (db : Db) (id : string) (task : PartialTaskDto.t)
  : Db * Result Task.t :=
  let (db', r) := TaskService.update db id task in (db', ofService r).

Definition succeeded (status : Z) : bool := (200 <=? status) && (status <? 300).

Section Categories.
Variable runSettersOnQuery : bool.

Definition fetchCategories (db : Db) : Db * Result JsValue :=
  let (db', response) := CategoryRoutes.get db in
  if succeeded (CategoryRoutes.status response)
  then (db', Ok (CategoryRoutes.body response))
  else (db', Throw (CategoryRoutes.status response)).

Definition createCategory (env : Env) (db : Db) (name : string)
  : Db * Result JsValue :=
  let (db', response) := CategoryRoutes.post runSettersOnQuery env db (Some name) in
  if succeeded (CategoryRoutes.status response)
  then (db', Ok (prop (CategoryRoutes.body response) "name"))
  else (db', Throw (CategoryRoutes.status response)).

Definition deleteCategory (db : Db) (name : string) : Db * Result unit :=
  let (db', response) := CategoryRoutes.delete runSettersOnQuery db name in
  if succeeded (CategoryRoutes.status response)
  then (db', Ok tt)
  else (db', Throw (CategoryRoutes.status response)).

End Categories.

End Api.

(* ================================================================= *)
(** ** The view: [App] *)

Module App.

Import Store.

Record Toast : Set := mkToast {
  toastTitle : string;
  toastDescription : string;
  destructive : bool
}.

(** The pieces of component state that the handlers below read or write. *)
Record State : Set := mkState {
  tasks : list Task.t;
  newTask : CreateTaskDto.t;
  editingTask : option Task.t;
  isDialogOpen : bool;
  isEditDialogOpen : bool;
  activeTab : string;
  searchQuery : string;
  isSubmitting : bool
}.

Definition blankTask : CreateTaskDto.t :=
  CreateTaskDto.mk "" "" false Task.medium None "personal".

Definition initialState : State :=
  mkState [] blankTask None false false "all" "" false.

Definition setTasks (f : list Task.t -> list Task.t) (s : State) : State :=
  mkState (f (tasks s)) (newTask s) (editingTask s) (isDialogOpen s)
          (isEditDialogOpen s) (activeTab s) (searchQuery s) (isSubmitting s).

Definition setNewTask (v : CreateTaskDto.t) (s : State) : State :=
  mkState (tasks s) v (editingTask s) (isDialogOpen s)
          (isEditDialogOpen s) (activeTab s) (searchQuery s) (isSubmitting s).

Definition setEditingTask (v : option Task.t) (s : State) : State :=
  mkState (tasks s) (newTask s) v (isDialogOpen s)
          (isEditDialogOpen s) (activeTab s) (searchQuery s) (isSubmitting s).

Definition setIsDialogOpen (v : bool) (s : State) : State :=
  mkState (tasks s) (newTask s) (editingTask s) v
          (isEditDialogOpen s) (activeTab s) (searchQuery s) (isSubmitting s).

Definition setIsEditDialogOpen (v : bool) (s : State) : State :=
  mkState (tasks s) (newTask s) (editingTask s) (isDialogOpen s)
          v (activeTab s) (searchQuery s) (isSubmitting s).

Definition setIsSubmitting (v : bool) (s : State) : State :=
  mkState (tasks s) (newTask s) (editingTask s) (isDialogOpen s)
          (isEditDialogOpen s) (activeTab s) (searchQuery s) v.

Definition isHigh (p : Task.Priority) : bool :=
  match p with Task.high => true | _ => false end.

(** The two conjuncts of the predicate of [filteredTasks]. *)
Definition matchesTab (activeTab : string) (task : Task.t) : bool :=
  String.eqb activeTab "all" ||
  (String.eqb activeTab "completed" && Task.completed task) ||
  (String.eqb activeTab "active" && negb (Task.completed task)) ||
  (String.eqb activeTab "high-priority" && isHigh (Task.priority task)) ||
  String.eqb activeTab (Task.category task).

Definition matchesSearch (searchQuery : string) (task : Task.t) : bool :=
  JsString.includes (JsString.toLowerCase (Task.title task))
                    (JsString.toLowerCase searchQuery) ||
  JsString.includes (JsString.toLowerCase (Task.description task))
                    (JsString.toLowerCase searchQuery).

Definition filteredTasks (tasks : list Task.t) (activeTab searchQuery : string)
  : list Task.t :=
  filter (fun task => matchesTab activeTab task && matchesSearch searchQuery task)
         tasks.

(** The server's store together with the component state. *)
Definition World : Set := Db * State.

Definition handleAddTask (env : Env) (w : World) : World * option Toast :=
  let (db, s) := w in
  if negb (JsString.truthy (JsString.trim (CreateTaskDto.title (newTask s))))
  then (w, Some (mkToast "Error" "Task title cannot be empty" true))
  else
    let s := setIsSubmitting true s in
    match Api.createTask env db (newTask s) with
    | (db', Api.Ok createdTask) =>
        let s := setTasks (fun prevTasks => createdTask :: prevTasks) s in
        let s := setNewTask blankTask s in
        let s := setIsDialogOpen false s in
        ((db', setIsSubmitting false s),
         Some (mkToast "Task added" "Your task has been added successfully" false))
    | (db', Api.Throw _) =>
        ((db', setIsSubmitting false s),
         Some (mkToast "Error" "Failed to add task. Please try again." true))
    end.

(** [const { _id, createdAt, ...taskData } = editingTask] *)
Definition taskData (editingTask : Task.t) : PartialTaskDto.t :=
  PartialTaskDto.mk (Some (Task.title editingTask))
                    (Some (Task.description editingTask))
                    (Some (Task.completed editingTask))
                    (Some (Task.priority editingTask))
                    (Some (Task.dueDate editingTask))
                    (Some (Task.category editingTask)).

Definition saveEditedTask (w : World) : World * option Toast :=
  let (db, s) := w in
  match editingTask s with
  | None => (w, None)
  | Some editing =>
      if negb (JsString.truthy (JsString.trim (Task.title editing)))
      then (w, Some (mkToast "Error" "Task title cannot be empty" true))
      else
        let s := setIsSubmitting true s in
        let _id := Task._id editing in
        match Api.updateTask db _id (taskData editing) with
        | (db', Api.Ok updatedTask) =>
            let s := setTasks
                       (map (fun task =>
                               if String.eqb (Task._id task) _id
                               then updatedTask else task)) s in
            let s := setIsEditDialogOpen false s in
            let s := setEditingTask None s in
            ((db', setIsSubmitting false s),
             Some (mkToast "Task updated" "Your task has been updated successfully" false))
        | (db', Api.Throw _) =>
            ((db', setIsSubmitting false s),
             Some (mkToast "Error" "Failed to update task. Please try again." true))
        end
  end.

Inductive DueDateStatus : Set := Overdue | Today | Soon | Future.

Section Host.

(** The time zone of the browser. *)
Variable LocalTZA : Z -> bool -> Z.

(** [getDueDateStatus]; [clock] is the time value that [new Date()] reads.
    A Date object is truthy whatever its time value, so only [null] takes
    the first exit. *)
Definition getDueDateStatus (clock : Z) (dueDate : option JsDate.Date)
  : option DueDateStatus :=
  match dueDate with
  | None => None
  | Some dueDate =>
      let today := JsDate.setHours0 LocalTZA (JsDate.TimeClip clock) in
      let dueDay := JsDate.setHours0 LocalTZA dueDate in
      let diffTime := JsDate.sub (JsDate.getTime dueDay) (JsDate.getTime today) in
      let diffDays := JsDate.div diffTime (JsDate.ofZ (1000 * 60 * 60 * 24)) in
      if JsDate.lt diffDays (JsDate.ofZ 0) then Some Overdue
      else if JsDate.strictEq diffDays (JsDate.ofZ 0) then Some Today
      else if JsDate.le diffDays (JsDate.ofZ 2) then Some Soon
      else Some Future
  end.

End Host.

End App.

(* ================================================================= *)
(** ** The vocabulary of the specification *)

Module Spec.

(** [s] contains [needle] as a contiguous run of code units. *)
Definition isSubstringOf (needle s : string) : Prop :=
  exists before after, s = before ++ needle ++ after.

(** A string is blank when all its code units are white space. *)
Fixpoint isBlank (s : string) : bool :=
  match s with
  | EmptyString => true
  | String c s' => JsString.isWhiteSpace c && isBlank s'
  end.

(** [kept] lists, in the order of [source], exactly the elements of
    [source] that satisfy [P]. *)
Inductive KeptInOrder {A : Type} (P : A -> Prop) : list A -> list A -> Prop :=
| kept_nil : KeptInOrder P [] []
| kept_take x source kept :
    P x -> KeptInOrder P source kept -> KeptInOrder P (x :: source) (x :: kept)
| kept_skip x source kept :
    ~ P x -> KeptInOrder P source kept -> KeptInOrder P (x :: source) kept.

(** The tab rule in the words of the specification: the four fixed tabs
    decide by themselves, any other tab value is a category name. *)
Definition tabMatchesAsStated (tab : string) (task : Task.t) : Prop :=
  if string_dec tab "all" then True
  else if string_dec tab "active" then Task.completed task = false
  else if string_dec tab "completed" then Task.completed task = true
  else if string_dec tab "high-priority" then Task.priority task = Task.high
  else tab = Task.category task.

(** The search rule in the words of the specification. *)
Definition searchMatches (searchQuery : string) (task : Task.t) : Prop :=
  isSubstringOf (JsString.toLowerCase searchQuery)
                (JsString.toLowerCase (Task.title task)) \/
  isSubstringOf (JsString.toLowerCase searchQuery)
                (JsString.toLowerCase (Task.description task)).

(** The calendar day, local time, on which the time value [t] falls, and
    the time value of that day's local midnight. *)
Definition localDay (LocalTZA : Z -> bool -> Z) (t : Z) : Z :=
  JsDate.Day (JsDate.LocalTime LocalTZA t).

Definition localMidnight (LocalTZA : Z -> bool -> Z) (t : Z) : Z :=
  JsDate.UTC LocalTZA (JsDate.MakeDate (localDay LocalTZA t) 0).

Definition inRange (t : Z) : Prop := Z.abs t <= JsDate.maxTimeValue.

(** The due-date rule in the words of the specification, on day numbers. *)
Definition classify (dueDay today : Z) : App.DueDateStatus :=
  if dueDay <? today then App.Overdue
  else if dueDay =? today then App.Today
  else if dueDay <=? today + 2 then App.Soon
  else App.Future.

(** Every stored category passes the validation of [categorySchema]. *)
Definition schemaValid (db : Store.Db) : Prop :=
  Forall (fun c => Category.validate c = None) (Store.categories db).

(** A create that is refused as a duplicate: status 400, with the message
    of the route's own check or that of the unique index. *)
Definition isConflict (r : CategoryRoutes.Response) : Prop :=
  CategoryRoutes.status r = 400 /\
  (CategoryRoutes.body r = CategoryRoutes.message "Category already exists" \/
   CategoryRoutes.body r
   = CategoryRoutes.message (errorMessage (DuplicateKey "name_1"))).

(** No two categories share a lowercased name. *)
Definition uniqueLowercasedNames (db : Store.Db) : Prop :=
  NoDup (map (fun c => JsString.toLowerCase (Category.name c))
             (Store.categories db)).

(** The invariant that the routes maintain: names are stored lowercased and
    no name is stored twice. *)
Definition storeInvariant (db : Store.Db) : Prop :=
  Forall (fun c => JsString.toLowerCase (Category.name c) = Category.name c)
         (Store.categories db) /\
  NoDup (map Category.name (Store.categories db)).

(** Lexicographic order on code units. *)
Definition lexLe (a b : string) : Prop := String.leb a b = true.

(** What the code computes: the same rule on the distance, in milliseconds,
    between the two local midnights. *)
Definition classifyByMidnights (diffTime : Z) : App.DueDateStatus :=
  if diffTime <? 0 then App.Overdue
  else if diffTime =? 0 then App.Today
  else if diffTime <=? 2 * JsDate.msPerDay then App.Soon
  else App.Future.

Definition byName (c d : Category.t) : Prop :=
  lexLe (Category.name c) (Category.name d).

(** The value of a field after an update: the supplied value as the schema
    stores it, or the prior value when none was supplied. *)
Definition fieldAfter {A : Type} (set : A -> A) (supplied : option A) (prior : A) : A :=
  match supplied with
  | Some v => set v
  | None => prior
  end.

Definition verbatim {A : Type} (v : A) : A := v.

End Spec.

(** ** Sample data *)

Module Sample.

Definition epoch : JsDate.Date := JsDate.DateAt 0.

(** The two tasks of the filtering example of the specification. *)
Definition first : Task.t :=
  Task.mk "t1" "Write report" "" false Task.high None epoch "work".
Definition second : Task.t :=
  Task.mk "t2" "Water plants" "" true Task.low None epoch "home".

(** A finished task filed under a category that is called like a tab. *)
Definition filedUnderActive : Task.t :=
  Task.mk "t3" "Pay rent" "" true Task.low None epoch "active".

(** Noon of 2024-11-02 in New York, and the midnights that begin
    2024-11-03 and 2024-11-04 there; daylight saving time ends in between,
    at 2024-11-03 06:00 UTC. *)
Definition noonNov2 : Z := JsDate.civil 2024 11 2 16 0.
Definition midnightNov3 : Z := JsDate.civil 2024 11 3 4 0.
Definition midnightNov4 : Z := JsDate.civil 2024 11 4 5 0.

(** The days of the due-date example of the specification, each at 09:30
    UTC, and "today" at 15:45 UTC. *)
Definition jan (day : Z) : Z := JsDate.civil 2024 1 day 9 30.
Definition todayJan10 : Z := JsDate.civil 2024 1 10 15 45.

Definition env1 : Env := mkEnv 1700000000000 "c1".
Definition env2 : Env := mkEnv 1700000060000 "c2".

Definition work : Category.t := Category.mk "c0" "work" epoch.

(** A store that holds the category "work" and one task filed under it. *)
Definition withWork : Store.Db := Store.mkDb [first] [work].

Definition emptyDb : Store.Db := Store.mkDb [] [].

(** A new title, typed with blanks around it, and nothing else. *)
Definition retitle : PartialTaskDto.t :=
  PartialTaskDto.mk (Some "  Draft  ") None None None None None.

Definition blankCandidate : CreateTaskDto.t :=
  CreateTaskDto.mk "   " "notes" false Task.medium None "personal".

End Sample.

(* ================================================================= *)
(** ** The view, continued: loading, categories, toggling and deleting *)

Module Page.

Import Store.

(** The component state: the pieces of [App.State] and, beside them, the
    pieces that loading and the category dialog read or write. *)
Record State : Set := mkState {
  view : App.State;
  categories : list string;
  newCategory : string;
  isCategoryDialogOpen : bool;
  loading : bool;
  error : option string
}.

Definition defaultCategories : list string :=
  ["personal"; "work"; "shopping"; "other"].

Definition initialState : State :=
  mkState App.initialState defaultCategories "" false true None.

Definition setView (f : App.State -> App.State) (s : State) : State :=
  mkState (f (view s)) (categories s) (newCategory s)
          (isCategoryDialogOpen s) (loading s) (error s).

Definition setCategories (f : list string -> list string) (s : State) : State :=
  mkState (view s) (f (categories s)) (newCategory s)
          (isCategoryDialogOpen s) (loading s) (error s).

Definition setNewCategory (v : string) (s : State) : State :=
  mkState (view s) (categories s) v
          (isCategoryDialogOpen s) (loading s) (error s).

Definition setIsCategoryDialogOpen (v : bool) (s : State) : State :=
  mkState (view s) (categories s) (newCategory s) v (loading s) (error s).

Definition setLoading (v : bool) (s : State) : State :=
  mkState (view s) (categories s) (newCategory s)
          (isCategoryDialogOpen s) v (error s).

Definition setError (v : option string) (s : State) : State :=
  mkState (view s) (categories s) (newCategory s)
          (isCategoryDialogOpen s) (loading s) v.

Definition tasks (s : State) : list Task.t := App.tasks (view s).

(** [response.data] of the list route read as the [string[]] that
    [fetchCategories] declares; that route sends strings only. *)
Definition strings (items : list JsValue) : list string :=
  flat_map (fun v => match v with JString s => [s] | _ => [] end) items.

(** [categories.includes(v)] *)
Definition includes (categories : list string) (v : string) : bool :=
  existsb (String.eqb v) categories.

Definition World : Set := Db * State.

Section Server.

Variable runSettersOnQuery : bool.

(** The task routes are not among the sources: what axios makes of their
    answers to GET /tasks, PATCH /tasks/:id and DELETE /tasks/:id is left
    open. *)
Variable tasksGet : Db -> Db * Api.Result (list Task.t).
Variable tasksPatch : Db -> string -> PartialTaskDto.t -> Db * Api.Result Task.t.
Variable tasksDelete : Db -> string -> Db * Api.Result unit.

(** api.ts: [fetchTasks], [updateTask] and [deleteTask] over these. *)
Definition fetchTasks (db : Db) : Db * Api.Result (list Task.t) :=
  let (db', response) := tasksGet db in
  match response with
  | Api.Ok data => (db', Api.Ok (map Api.withDates data))
  | Api.Throw status => (db', Api.Throw status)
  end.

Definition updateTask (db : Db) (id : string) (task : PartialTaskDto.t)
  : Db * Api.Result Task.t :=
  let (db', response) := tasksPatch db id task in
  match response with
  | Api.Ok data => (db', Api.Ok (Api.withDates data))
  | Api.Throw status => (db', Api.Throw status)
  end.

Definition deleteTask (db : Db) (id : string) : Db * Api.Result unit :=
  tasksDelete db id.

Definition loadFailed : string := "Failed to load data. Please try again later.".

(** [loadData] of the mount effect. Both requests are sent; the state is
    touched only when both have been answered. *)
Definition loadData (w : World) : World * option App.Toast :=
  let (db, s) := w in
  let s := setLoading true s in
  let (db, tasksData) := fetchTasks db in
  let (db, categoriesData) := Api.fetchCategories db in
  match tasksData, categoriesData with
  | Api.Ok tasksData, Api.Ok categoriesData =>
      let s := setView (App.setTasks (fun _ => tasksData)) s in
      let s :=
        match categoriesData with
        | JArray (item :: items) => setCategories (fun _ => strings (item :: items)) s
        | _ => s
        end in
      let s := setError None s in
      ((db, setLoading false s), None)
  | _, _ =>
      let s := setError (Some loadFailed) s in
      ((db, setLoading false s), Some (App.mkToast "Error" loadFailed true))
  end.

Definition toggleTaskCompletion (id : string) (completed : bool) (w : World)
  : World * option App.Toast :=
  let (db, s) := w in
  match updateTask db id
          (PartialTaskDto.mk None None (Some (negb completed)) None None None) with
  | (db', Api.Ok updatedTask) =>
      let s := setView
                 (App.setTasks
                    (map (fun task =>
                            if String.eqb (Task._id task) id
                            then updatedTask else task))) s in
      ((db', s),
       Some (App.mkToast
               (if completed then "Task marked as incomplete" else "Task completed")
               ("Task has been marked as " ++
                (if completed then "incomplete" else "complete"))
               false))
  | (db', Api.Throw _) =>
      ((db', s),
       Some (App.mkToast "Error" "Failed to update task. Please try again." true))
  end.

Definition handleDeleteTask (id : string) (w : World) : World * option App.Toast :=
  let (db, s) := w in
  match deleteTask db id with
  | (db', Api.Ok _) =>
      let s := setView
                 (App.setTasks
                    (filter (fun task => negb (String.eqb (Task._id task) id)))) s in
      ((db', s), Some (App.mkToast "Task deleted" "Your task has been deleted" false))
  | (db', Api.Throw _) =>
      ((db', s),
       Some (App.mkToast "Error" "Failed to delete task. Please try again." true))
  end.

Definition startEditTask (task : Task.t) (s : State) : State :=
  setView (fun v => App.setIsEditDialogOpen true (App.setEditingTask (Some task) v)) s.

Definition handleAddCategory (env : Env) (w : World) : World * option App.Toast :=
  let (db, s) := w in
  if negb (JsString.truthy (JsString.trim (newCategory s)))
  then (w, Some (App.mkToast "Error" "Category name cannot be empty" true))
  else if includes (categories s) (JsString.toLowerCase (newCategory s))
  then (w, Some (App.mkToast "Error" "This category already exists" true))
  else
    let s := setView (App.setIsSubmitting true) s in
    match Api.createCategory runSettersOnQuery env db (newCategory s) with
    | (db', Api.Ok _) =>
        let s := setCategories
                   (fun prevCategories =>
                      (prevCategories ++ [JsString.toLowerCase (newCategory s)])%list) s in
        let s := setNewCategory "" s in
        let s := setIsCategoryDialogOpen false s in
        ((db', setView (App.setIsSubmitting false) s),
         Some (App.mkToast "Category added" "New category has been added" false))
    | (db', Api.Throw _) =>
        ((db', setView (App.setIsSubmitting false) s),
         Some (App.mkToast "Error" "Failed to add category. Please try again." true))
    end.

End Server.

End Page.

(** ** Further vocabulary *)

Module PageSpec.

(** Every stored name is as the setters of [categorySchema] leave it, and
    is not empty. *)
Definition normalised (db : Store.Db) : Prop :=
  Forall (fun c => Category.setName (Category.name c) = Category.name c /\
                   Category.name c <> "")
         (Store.categories db).

Definition uniqueIds (db : Store.Db) : Prop :=
  NoDup (map Category._id (Store.categories db)).

(** The tabs of the view are the names of the store. *)
Definition sameNames (s : Page.State) (db : Store.Db) : Prop :=
  forall v, In v (Page.categories s) <-> In v (map Category.name (Store.categories db)).

End PageSpec.

(** ** More sample data *)

Module Fixture.

(** A task server that is down, and one that serves the given tasks. *)
Definition down {A : Type} (status : Z) (db : Store.Db) : Store.Db * Api.Result A :=
  (db, Api.Throw status).


(** The view with one tab, "work", and a name typed into the category
    dialog. *)
Definition typing (v : string) : Page.State :=
  Page.setNewCategory v (Page.setCategories (fun _ => ["work"]) Page.initialState).

Definition hour : Z := 3600000.

End Fixture.

(* ================================================================= *)
(** * Properties *)

(** ** Strings *)

Section StringFacts.

Import JsString Spec.

Lemma startsWith_iff (s p : string) :
  startsWith s p = true <-> exists rest, s = p ++ rest.
Proof.
  revert s; induction p as [|a p IH]; intros s; simpl.
  - destruct s; split; intros _; eauto.
  - destruct s as [|b s]; simpl.
    + split; [discriminate | intros [rest H]; discriminate H].
    + rewrite andb_true_iff, Ascii.eqb_eq, IH. split.
      * intros [-> [rest ->]]. now exists rest.
      * intros [rest H]. injection H as -> ->. split; eauto.
Qed.

Lemma includes_iff (s needle : string) :
  includes s needle = true <-> isSubstringOf needle s.
Proof.
  unfold isSubstringOf.
  induction s as [|c s IH].
  - cbn [includes]. rewrite orb_false_r, startsWith_iff. split.
    + intros [rest H]. now exists "", rest.
    + intros [[|b before] [after H]]; simpl in H; [eauto | discriminate H].
  - cbn [includes]. rewrite orb_true_iff, startsWith_iff, IH. split.
    + intros [[rest H] | [before [after H]]].
      * now exists "", rest.
      * exists (String c before), after. simpl. now rewrite H.
    + intros [[|b before] [after H]]; simpl in H.
      * left. eauto.
      * right. injection H as _ H. eauto.
Qed.

Lemma includes_empty (s : string) : includes s "" = true.
Proof. apply includes_iff. exists "", s. reflexivity. Qed.

Lemma toLowerCaseChar_idem (c : ascii) :
  toLowerCaseChar (toLowerCaseChar c) = toLowerCaseChar c.
Proof. destruct c as [[] [] [] [] [] [] [] []]; reflexivity. Qed.

Lemma isWhiteSpace_toLowerCaseChar (c : ascii) :
  isWhiteSpace (toLowerCaseChar c) = isWhiteSpace c.
Proof. destruct c as [[] [] [] [] [] [] [] []]; reflexivity. Qed.

Lemma toLowerCase_idem (s : string) :
  toLowerCase (toLowerCase s) = toLowerCase s.
Proof.
  induction s as [|c s IH]; simpl; [reflexivity|].
  now rewrite toLowerCaseChar_idem, IH.
Qed.

Lemma toLowerCase_trimStart (s : string) :
  trimStart (toLowerCase s) = toLowerCase (trimStart s).
Proof.
  induction s as [|c s IH]; simpl; [reflexivity|].
  rewrite isWhiteSpace_toLowerCaseChar.
  destruct (isWhiteSpace c); [exact IH | reflexivity].
Qed.

Lemma toLowerCase_trimEnd (s : string) :
  trimEnd (toLowerCase s) = toLowerCase (trimEnd s).
Proof.
  induction s as [|c s IH]; simpl; [reflexivity|].
  rewrite IH, isWhiteSpace_toLowerCaseChar.
  destruct (trimEnd s); simpl; [destruct (isWhiteSpace c)|]; reflexivity.
Qed.

(** The two setters of [categorySchema] commute. *)
Lemma toLowerCase_trim (s : string) :
  trim (toLowerCase s) = toLowerCase (trim s).
Proof. unfold trim. now rewrite toLowerCase_trimStart, toLowerCase_trimEnd. Qed.

Lemma setName_toLowerCase (n : string) :
  Category.setName (toLowerCase n) = toLowerCase (trim n).
Proof. unfold Category.setName. now rewrite toLowerCase_idem, toLowerCase_trim. Qed.

Lemma toLowerCase_setName (v : string) :
  toLowerCase (Category.setName v) = Category.setName v.
Proof.
  unfold Category.setName. now rewrite <- toLowerCase_trim, toLowerCase_idem.
Qed.

Lemma truthy_false_iff (s : string) : truthy s = false <-> s = "".
Proof. destruct s; simpl; split; congruence. Qed.

Lemma truthy_true_iff (s : string) : truthy s = true <-> s <> "".
Proof. destruct s; simpl; split; congruence. Qed.

Lemma trimStart_blank (s : string) : isBlank s = true -> trimStart s = "".
Proof.
  induction s as [|c s IH]; simpl; [reflexivity|].
  destruct (isWhiteSpace c); simpl; [exact IH | discriminate].
Qed.

Lemma trimEnd_empty_iff (s : string) : trimEnd s = "" <-> isBlank s = true.
Proof.
  induction s as [|c s IH]; simpl; [tauto|].
  destruct (trimEnd s) eqn:E.
  - destruct (isWhiteSpace c); simpl.
    + rewrite <- IH. tauto.
    + split; discriminate.
  - destruct (isWhiteSpace c); simpl.
    + rewrite <- IH. split; discriminate.
    + split; discriminate.
Qed.

Lemma isBlank_trimStart (s : string) : isBlank (trimStart s) = isBlank s.
Proof.
  induction s as [|c s IH]; simpl; [reflexivity|].
  destruct (isWhiteSpace c) eqn:E; simpl; [exact IH | now rewrite E].
Qed.

(** [trim] leaves nothing exactly on the empty and the white-space-only
    strings. *)
Lemma trim_empty_iff (s : string) : trim s = "" <-> isBlank s = true.
Proof. unfold trim. now rewrite trimEnd_empty_iff, isBlank_trimStart. Qed.

End StringFacts.

(** ** [filteredTasks] *)

Section Filtering.

Import Spec.

Lemma filter_KeptInOrder {A : Type} (P : A -> Prop) (f : A -> bool) :
  (forall x, f x = true <-> P x) ->
  forall l, KeptInOrder P l (filter f l).
Proof.
  intros Hf l. induction l as [|x l IH]; simpl.
  - constructor.
  - destruct (f x) eqn:E.
    + apply kept_take; [now apply Hf | exact IH].
    + apply kept_skip; [|exact IH].
      intros HP. apply Hf in HP. congruence.
Qed.

(** What has been kept in order is a filter's output, whichever way the
    predicate is decided. *)
Lemma KeptInOrder_unique {A : Type} (P : A -> Prop) (l k1 k2 : list A) :
  KeptInOrder P l k1 -> KeptInOrder P l k2 -> k1 = k2.
Proof.
  intros H1; revert k2.
  induction H1 as [|x l k1 Hx _ IH|x l k1 Hx _ IH]; intros k2 H2;
    inversion H2; subst; try contradiction; auto.
  f_equal; auto.
Qed.

Lemma KeptInOrder_In {A : Type} (P : A -> Prop) (l k : list A) :
  KeptInOrder P l k -> forall x, In x k -> In x l /\ P x.
Proof.
  induction 1 as [|x l k Hx _ IH|x l k Hx _ IH]; intros y Hy.
  - destruct Hy.
  - destruct Hy as [<- | Hy]; [split; [now left | exact Hx]|].
    destruct (IH y Hy). split; [now right | assumption].
  - destruct (IH y Hy). split; [now right | assumption].
Qed.

Lemma isHigh_iff (p : Task.Priority) : App.isHigh p = true <-> p = Task.high.
Proof. destruct p; simpl; split; congruence. Qed.

(** The tab test of the code is the stated rule, widened by one case: a tab
    value that equals the task's category always matches. *)
Lemma matchesTab_iff (tab : string) (task : Task.t) :
  App.matchesTab tab task = true <->
  tabMatchesAsStated tab task \/ tab = Task.category task.
Proof.
  unfold App.matchesTab, tabMatchesAsStated.
  rewrite !orb_true_iff, !andb_true_iff, negb_true_iff, isHigh_iff, !String.eqb_eq.
  destruct (string_dec tab "all") as [Hall|Hall]; [tauto|].
  destruct (string_dec tab "active") as [Hact|Hact].
  { subst tab. split.
    - intros [[[[H|[H _]]|[_ H]]|[H _]]|H]; try discriminate H; auto.
    - intros [H|H]; auto. }
  destruct (string_dec tab "completed") as [Hc|Hc].
  { subst tab. split.
    - intros [[[[H|[_ H]]|[H _]]|[H _]]|H]; try discriminate H; auto.
    - intros [H|H]; auto 6. }
  destruct (string_dec tab "high-priority") as [Hh|Hh].
  { subst tab. split.
    - intros [[[[H|[H _]]|[H _]]|[_ H]]|H]; try discriminate H; auto.
    - intros [H|H]; auto. }
  tauto.
Qed.

Lemma matchesSearch_iff (searchQuery : string) (task : Task.t) :
  App.matchesSearch searchQuery task = true <-> searchMatches searchQuery task.
Proof.
  unfold App.matchesSearch, searchMatches.
  now rewrite orb_true_iff, !includes_iff.
Qed.

(** The filtering example of the specification. *)
Example filteredTasks_completed :
  App.filteredTasks [Sample.first; Sample.second] "completed" "" = [Sample.second].
Proof. reflexivity. Qed.

Example filteredTasks_high_priority :
  App.filteredTasks [Sample.first; Sample.second] "high-priority" "" = [Sample.first].
Proof. reflexivity. Qed.

Example filteredTasks_work :
  App.filteredTasks [Sample.first; Sample.second] "work" "" = [Sample.first].
Proof. reflexivity. Qed.

Example filteredTasks_search :
  App.filteredTasks [Sample.first; Sample.second] "all" "PLANT" = [Sample.second].
Proof. reflexivity. Qed.

(** C1, as stated, fails: under the tab "active" the filter keeps a finished
    task whose category is called "active", which the stated rule for that
    tab excludes. *)
Lemma filteredTasks_not_as_stated :
  ~ KeptInOrder
      (fun task => tabMatchesAsStated "active" task /\ searchMatches "" task)
      [Sample.filedUnderActive]
      (App.filteredTasks [Sample.filedUnderActive] "active" "").
Proof.
  intros H.
  apply KeptInOrder_In with (x := Sample.filedUnderActive) in H; [|now left].
  destruct H as [_ [H _]]. discriminate H.
Qed.

(** C1, amended: the filter keeps, in the order of the source list, exactly
    the tasks that match the tab and the search string, where a task matches
    the tab when the stated rule holds or the tab value equals the task's
    category, and matches the search when the lowercased search string is a
    substring of its lowercased title or description; the empty search
    string matches every task. *)
Theorem filteredTasks_exact (tasks : list Task.t) (activeTab searchQuery : string) :
  KeptInOrder
    (fun task =>
       (tabMatchesAsStated activeTab task \/ activeTab = Task.category task) /\
       searchMatches searchQuery task)
    tasks
    (App.filteredTasks tasks activeTab searchQuery)
  /\ (forall task, searchMatches "" task).
Proof.
  split.
  - apply filter_KeptInOrder. intros task.
    now rewrite andb_true_iff, matchesTab_iff, matchesSearch_iff.
  - intros task. apply matchesSearch_iff. unfold App.matchesSearch.
    simpl. now rewrite includes_empty.
Qed.

End Filtering.

(** ** [getDueDateStatus] *)

Section DueDates.

Import Spec JsDate.

Lemma Qcompare_inject_Z (a b : Z) : (inject_Z a ?= inject_Z b)%Q = (a ?= b).
Proof. unfold Qcompare, inject_Z; simpl. now rewrite !Z.mul_1_r. Qed.

(** A difference of time values, divided by the length of a day, compares
    with [k] like the difference itself with [k] days. *)
Lemma diffDays_compare (m1 m0 k : Z) :
  ((inject_Z m1 - inject_Z m0) / inject_Z (1000 * 60 * 60 * 24) ?= inject_Z k)%Q
  = (m1 - m0 ?= k * msPerDay).
Proof.
  unfold Qminus. rewrite <- inject_Z_opp, <- inject_Z_plus.
  change (m1 + - m0) with (m1 - m0). set (n := m1 - m0).
  change (1000 * 60 * 60 * 24) with msPerDay.
  assert (Hpos : (0 < inject_Z msPerDay)%Q) by reflexivity.
  destruct (Z.compare_spec n (k * msPerDay)) as [E|L|G].
  - apply Qeq_alt. rewrite E, inject_Z_mult. apply Qdiv_mult_l. discriminate.
  - apply Qlt_alt. apply Qlt_shift_div_r; [exact Hpos|].
    rewrite <- inject_Z_mult, <- Zlt_Qlt. exact L.
  - apply Qgt_alt. apply Qlt_shift_div_l; [exact Hpos|].
    rewrite <- inject_Z_mult, <- Zlt_Qlt. exact G.
Qed.

Lemma TimeClip_inRange (t : Z) : inRange t -> TimeClip t = DateAt t.
Proof.
  unfold inRange, TimeClip. intros H.
  destruct (Z.leb_spec (Z.abs t) maxTimeValue); [reflexivity | lia].
Qed.

Lemma setHours0_localMidnight (LocalTZA : Z -> bool -> Z) (t : Z) :
  setHours0 LocalTZA (DateAt t) = TimeClip (localMidnight LocalTZA t).
Proof. reflexivity. Qed.

(** In any time zone, for dates that [TimeClip] leaves alone, the answer
    depends on the distance between the two local midnights only. *)
Lemma getDueDateStatus_by_midnights (LocalTZA : Z -> bool -> Z) (clock due : Z) :
  inRange clock ->
  inRange (localMidnight LocalTZA clock) ->
  inRange (localMidnight LocalTZA due) ->
  App.getDueDateStatus LocalTZA clock (Some (DateAt due))
  = Some (classifyByMidnights
            (localMidnight LocalTZA due - localMidnight LocalTZA clock)).
Proof.
  intros Hc Hm0 Hm1. unfold App.getDueDateStatus.
  rewrite (TimeClip_inRange clock Hc), !setHours0_localMidnight.
  rewrite (TimeClip_inRange _ Hm0), (TimeClip_inRange _ Hm1).
  cbn [getTime sub div ofZ lt le strictEq].
  replace (Qeq_bool (inject_Z (1000 * 60 * 60 * 24)) 0) with false by reflexivity.
  unfold lt, le, strictEq, ofZ. rewrite !diffDays_compare.
  set (diffTime := localMidnight LocalTZA due - localMidnight LocalTZA clock).
  unfold classifyByMidnights. change (0 * msPerDay) with 0.
  destruct (Z.compare_spec diffTime 0);
    destruct (Z.compare_spec diffTime (2 * msPerDay));
    destruct (Z.ltb_spec diffTime 0); destruct (Z.eqb_spec diffTime 0);
    destruct (Z.leb_spec diffTime (2 * msPerDay)); try reflexivity; lia.
Qed.

(** X7: on a host whose offset never changes, and for dates that
    [TimeClip] leaves alone, the classification is the stated rule on
    calendar days. *)
Lemma getDueDateStatus_fixedZone (offset clock due : Z) :
  let zone := fixedZone offset in
  inRange clock ->
  inRange (localMidnight zone clock) ->
  inRange (localMidnight zone due) ->
  App.getDueDateStatus zone clock (Some (DateAt due))
  = Some (classify (localDay zone due) (localDay zone clock)).
Proof.
  intros zone Hc Hm0 Hm1.
  rewrite (getDueDateStatus_by_midnights zone clock due Hc Hm0 Hm1).
  set (d1 := localDay zone due). set (d0 := localDay zone clock).
  replace (localMidnight zone due - localMidnight zone clock)
    with ((d1 - d0) * msPerDay)
    by (unfold localMidnight, UTC, MakeDate, d1, d0, zone, fixedZone; ring).
  unfold classifyByMidnights, classify, msPerDay.
  destruct (Z.ltb_spec ((d1 - d0) * 86400000) 0);
    destruct (Z.eqb_spec ((d1 - d0) * 86400000) 0);
    destruct (Z.leb_spec ((d1 - d0) * 86400000) (2 * 86400000));
    destruct (Z.ltb_spec d1 d0); destruct (Z.eqb_spec d1 d0);
    destruct (Z.leb_spec d1 (d0 + 2)); try reflexivity; lia.
Qed.

(** An invalid due date is classified [Future]: every comparison with NaN
    is false. *)
Lemma getDueDateStatus_invalid (LocalTZA : Z -> bool -> Z) (clock : Z) :
  App.getDueDateStatus LocalTZA clock (Some InvalidDate) = Some App.Future.
Proof.
  reflexivity.
Qed.

(** The due-date example of the specification, on a host at UTC and on one
    in New York. *)
Example dueDate_examples_utc :
  App.getDueDateStatus (fixedZone 0) Sample.todayJan10 (Some (DateAt (Sample.jan 9)))
    = Some App.Overdue /\
  App.getDueDateStatus (fixedZone 0) Sample.todayJan10 (Some (DateAt (Sample.jan 10)))
    = Some App.Today /\
  App.getDueDateStatus (fixedZone 0) Sample.todayJan10 (Some (DateAt (Sample.jan 11)))
    = Some App.Soon /\
  App.getDueDateStatus (fixedZone 0) Sample.todayJan10 (Some (DateAt (Sample.jan 20)))
    = Some App.Future.
Proof. repeat split; vm_compute; reflexivity. Qed.

Example dueDate_examples_newYork :
  App.getDueDateStatus newYork2024 Sample.todayJan10 (Some (DateAt (Sample.jan 9)))
    = Some App.Overdue /\
  App.getDueDateStatus newYork2024 Sample.todayJan10 (Some (DateAt (Sample.jan 10)))
    = Some App.Today /\
  App.getDueDateStatus newYork2024 Sample.todayJan10 (Some (DateAt (Sample.jan 11)))
    = Some App.Soon /\
  App.getDueDateStatus newYork2024 Sample.todayJan10 (Some (DateAt (Sample.jan 20)))
    = Some App.Future.
Proof. repeat split; vm_compute; reflexivity. Qed.

(** C2 fails on the code where a day has 25 hours. In New York at noon of
    2024-11-02, a task due on 2024-11-04 is due two calendar days ahead, so
    the stated rule says [Soon]; the two local midnights are 49 hours apart,
    [diffDays] is 49/24, and the code answers [Future]. One day ahead, over
    the same change of the clocks, the answer is still [Soon]. *)
Theorem getDueDateStatus_fall_back :
  localDay newYork2024 Sample.midnightNov4
    = localDay newYork2024 Sample.noonNov2 + 2 /\
  classify (localDay newYork2024 Sample.midnightNov4)
           (localDay newYork2024 Sample.noonNov2) = App.Soon /\
  localMidnight newYork2024 Sample.midnightNov4
    - localMidnight newYork2024 Sample.noonNov2 = 49 * 3600000 /\
  App.getDueDateStatus newYork2024 Sample.noonNov2
    (Some (DateAt Sample.midnightNov4)) = Some App.Future /\
  App.getDueDateStatus newYork2024 Sample.noonNov2
    (Some (DateAt Sample.midnightNov3)) = Some App.Soon.
Proof. repeat split; vm_compute; reflexivity. Qed.

(** C10: the derivation answers [null] for a [null] due date, and only
    then: every Date object, even an invalid one, gets one of the four
    classifications. *)
Theorem getDueDateStatus_null (LocalTZA : Z -> bool -> Z) (clock : Z)
    (dueDate : option Date) :
  App.getDueDateStatus LocalTZA clock dueDate = None <-> dueDate = None.
Proof.
  destruct dueDate as [d|]; simpl; [|tauto].
  split; [|discriminate].
  repeat match goal with
         | |- context [if ?b then _ else _] => destruct b
         end; discriminate.
Qed.

End DueDates.

(** ** The category routes *)

Section CategoryFacts.

Import Spec Store CategoryRoutes.

Variable runSettersOnQuery : bool.

Lemma existsb_name (v : string) (l : list Category.t) :
  existsb (fun c => String.eqb (Category.name c) v) l = true <->
  In v (map Category.name l).
Proof.
  rewrite existsb_exists, in_map_iff. split.
  - intros [c [Hin H]]. apply String.eqb_eq in H. eauto.
  - intros [c [H Hin]]. exists c. split; [exact Hin | now apply String.eqb_eq].
Qed.

(** [save] either refuses and leaves the store alone, or appends the
    document, which then is valid and has a name that was not stored. *)
Lemma Category_save_inv (db : Db) (doc : Category.t) :
  (exists e, Category_save db doc = inl e) \/
  (Category_save db doc
   = inr (withCategories db (categories db ++ [doc]), doc) /\
   Category.validate doc = None /\
   ~ In (Category.name doc) (map Category.name (categories db))).
Proof.
  unfold Category_save.
  destruct (Category.validate doc) as [e|] eqn:V; [left; eauto|].
  destruct (existsb _ _) eqn:E; [left; eauto|].
  right. repeat split. rewrite <- existsb_name. congruence.
Qed.

(** The two outcomes of [post]. *)
Lemma post_inv (env : Env) (db : Db) (name : option string) :
  (exists text, post runSettersOnQuery env db name
                = (db, mkResponse 400 (message text))) \/
  (exists n, name = Some n /\
     let created := Category.new env (JsString.toLowerCase n) in
     post runSettersOnQuery env db name
     = (withCategories db (categories db ++ [created]),
        mkResponse 201 (Category.toJSON created)) /\
     Category.validate created = None /\
     ~ In (Category.name created) (map Category.name (categories db))).
Proof.
  unfold post. destruct name as [n|]; [|left; eauto].
  destruct (Category_findOne _ _ _); [left; eauto|].
  destruct (Category_save_inv db (Category.new env (JsString.toLowerCase n)))
    as [[e He] | [He [V N]]]; rewrite He.
  - left. eauto.
  - right. exists n. repeat split; assumption.
Qed.

Lemma new_name (env : Env) (n : string) :
  Category.name (Category.new env (JsString.toLowerCase n))
  = JsString.toLowerCase (JsString.trim n).
Proof. simpl. apply setName_toLowerCase. Qed.

(** C3: when a stored category already bears the lowercased, trimmed
    candidate name, the create is refused as a conflict (status 400) and the
    store is the one it was, whether the route's own look-up finds the
    category or the unique index turns the insert down. *)
Theorem post_duplicate_conflict (env : Env) (db : Db) (n : string) (c : Category.t) :
  schemaValid db ->
  In c (categories db) ->
  Category.name c = JsString.toLowerCase (JsString.trim n) ->
  exists r, post runSettersOnQuery env db (Some n) = (db, r) /\ isConflict r.
Proof.
  intros Hvalid Hin Hname. unfold post.
  destruct (Category_findOne _ _ _).
  - eexists. split; [reflexivity|]. split; [reflexivity | now left].
  - unfold Category_save.
    assert (V : Category.validate (Category.new env (JsString.toLowerCase n)) = None).
    { unfold Category.validate. rewrite new_name, <- Hname.
      unfold schemaValid in Hvalid. rewrite Forall_forall in Hvalid.
      apply Hvalid in Hin. unfold Category.validate in Hin.
      destruct (JsString.truthy (Category.name c)); [reflexivity | discriminate]. }
    rewrite V.
    assert (E : existsb
                  (fun d => String.eqb (Category.name d)
                     (Category.name (Category.new env (JsString.toLowerCase n))))
                  (categories db) = true).
    { apply existsb_name. rewrite new_name, <- Hname. now apply in_map. }
    rewrite E. eexists. split; [reflexivity|]. split; [reflexivity | now right].
Qed.

(** C5, amended: a create that succeeds answers 201 with the whole stored
    document as its body, that is the name, lowercased and trimmed, together
    with [_id], [createdAt] and [__v]; the store gains that document; and
    [createCategory] of api.ts hands its caller the name and nothing else. *)
Theorem post_created (env : Env) (db db' : Db) (n : string) (r : Response) :
  post runSettersOnQuery env db (Some n) = (db', r) ->
  status r = 201 ->
  let created :=
    Category.mk (objectId env) (JsString.toLowerCase (JsString.trim n))
                (JsDate.DateAt (now env)) in
  body r = Category.toJSON created /\
  keys (body r) = ["_id"; "name"; "createdAt"; "__v"] /\
  prop (body r) "name" = JString (JsString.toLowerCase (JsString.trim n)) /\
  categories db' = (categories db ++ [created])%list /\
  Api.createCategory runSettersOnQuery env db n
  = (db', Api.Ok (JString (JsString.toLowerCase (JsString.trim n)))).
Proof.
  intros Hpost Hstatus created.
  assert (Hc : Category.new env (JsString.toLowerCase n) = created).
  { unfold Category.new, created. now rewrite setName_toLowerCase. }
  unfold Api.createCategory.
  destruct (post_inv env db (Some n)) as [[text H] | [n' [Hn [H _]]]];
    rewrite H in Hpost; injection Hpost as <- <-.
  - discriminate Hstatus.
  - injection Hn as <-. rewrite H, Hc. repeat split.
Qed.

(** On a store whose names are as the setters leave them, a create
    succeeds as soon as the candidate is not blank and its lowercased,
    trimmed name is not stored. *)
Lemma post_fresh_succeeds (env : Env) (db : Db) (n : string) :
  Forall (fun c => Category.setName (Category.name c) = Category.name c)
         (categories db) ->
  JsString.trim n <> "" ->
  ~ In (JsString.toLowerCase (JsString.trim n)) (map Category.name (categories db)) ->
  exists db', post runSettersOnQuery env db (Some n)
              = (db', mkResponse 201
                        (Category.toJSON (Category.new env (JsString.toLowerCase n)))).
Proof.
  intros Hnorm Hne Hfresh. unfold post.
  destruct (Category_findOne _ _ _) as [c|] eqn:F.
  - exfalso. unfold Category_findOne in F. apply find_some in F as [Hin Heq].
    apply String.eqb_eq in Heq. apply Hfresh.
    rewrite Forall_forall in Hnorm. specialize (Hnorm c Hin).
    unfold castNameFilter in Heq. destruct runSettersOnQuery.
    + rewrite setName_toLowerCase in Heq. rewrite <- Heq. now apply in_map.
    + rewrite Heq, setName_toLowerCase in Hnorm. rewrite Hnorm, <- Heq.
      now apply in_map.
  - unfold Category_save, Category.validate. rewrite new_name.
    assert (T : JsString.truthy (JsString.toLowerCase (JsString.trim n)) = true).
    { destruct (JsString.trim n); [contradiction | reflexivity]. }
    rewrite T.
    destruct (existsb _ _) eqn:E.
    + apply existsb_name in E. contradiction.
    + eauto.
Qed.

Lemma Forall_removeFirst {A : Type} (P : A -> Prop) (p : A -> bool) (l : list A) :
  Forall P l -> Forall P (removeFirst p l).
Proof.
  induction 1 as [|x l Hx Hl IH]; simpl; [constructor|].
  destruct (p x); [assumption | now constructor].
Qed.

Lemma In_map_removeFirst {A B : Type} (f : A -> B) (p : A -> bool) (l : list A) (y : B) :
  In y (map f (removeFirst p l)) -> In y (map f l).
Proof.
  induction l as [|x l IH]; simpl; [tauto|].
  destruct (p x); simpl; tauto.
Qed.

Lemma NoDup_map_removeFirst {A B : Type} (f : A -> B) (p : A -> bool) (l : list A) :
  NoDup (map f l) -> NoDup (map f (removeFirst p l)).
Proof.
  induction l as [|x l IH]; simpl; intros H; [assumption|].
  inversion H as [|? ? Hx Hl]; subst.
  destruct (p x); [assumption|].
  simpl. constructor; [|now apply IH].
  intros Hin. apply Hx. eapply In_map_removeFirst; eassumption.
Qed.

Lemma NoDup_snoc {A : Type} (l : list A) (x : A) :
  NoDup l -> ~ In x l -> NoDup (l ++ [x])%list.
Proof.
  induction 1 as [|y l Hy Hl IH]; simpl; intros Hx.
  - constructor; [tauto | constructor].
  - constructor.
    + rewrite in_app_iff. simpl. intros [H | [H | []]]; [tauto | subst; tauto].
    + apply IH. tauto.
Qed.

(** Each request leaves the invariant in place. *)
Lemma handle_storeInvariant (db : Db) (r : Request) :
  storeInvariant db -> storeInvariant (fst (handle runSettersOnQuery db r)).
Proof.
  intros [Hlow Hnodup]. destruct r as [|env name|name]; simpl.
  - split; assumption.
  - destruct (post_inv env db name) as [[text H] | [n [_ [H [_ Hfresh]]]]];
      rewrite H; unfold storeInvariant; simpl; [split; assumption|].
    split.
    + apply Forall_app. split; [assumption|].
      constructor; [|constructor]. apply toLowerCase_setName.
    + rewrite map_app. simpl. now apply NoDup_snoc.
  - unfold delete. destruct (Category_findOne _ _ _); simpl; [|split; assumption].
    split; [now apply Forall_removeFirst | now apply NoDup_map_removeFirst].
Qed.

Lemma storeInvariant_unique (db : Db) :
  storeInvariant db -> uniqueLowercasedNames db.
Proof.
  intros [Hlow Hnodup]. unfold uniqueLowercasedNames.
  rewrite (map_ext_in _ Category.name); [assumption|].
  rewrite Forall_forall in Hlow. exact Hlow.
Qed.

Lemma reachable_storeInvariant (db : Db) :
  reachable runSettersOnQuery db -> storeInvariant db.
Proof.
  induction 1 as [ts | db r _ IH].
  - split; simpl; constructor.
  - now apply handle_storeInvariant.
Qed.

(** C7: in every store that requests to the category service bring about
    from the empty collection, no two categories share a lowercased name,
    and the store after one more request, whichever it is, is such a store
    again. *)
Theorem reachable_unique_names (db : Db) :
  reachable runSettersOnQuery db ->
  uniqueLowercasedNames db /\
  forall r, uniqueLowercasedNames (fst (handle runSettersOnQuery db r)).
Proof.
  intros H. split.
  - now apply storeInvariant_unique, reachable_storeInvariant.
  - intros r. apply storeInvariant_unique, handle_storeInvariant.
    now apply reachable_storeInvariant.
Qed.

(** C8: the delete route leaves the task collection as it is, whether it
    removes a category or answers 404; tasks filed under the deleted name
    keep that name. *)
Theorem delete_keeps_tasks (db : Db) (name : string) :
  tasks (fst (delete runSettersOnQuery db name)) = tasks db.
Proof.
  unfold delete. destruct (Category_findOne _ _ _); reflexivity.
Qed.

End CategoryFacts.

(** ** The list route *)

Section ListFacts.

Import Spec Store CategoryRoutes.

Lemma leb_trans (a b c : string) :
  String.leb a b = true -> String.leb b c = true -> String.leb a c = true.
Proof.
  unfold String.leb. revert b c.
  induction a as [|x a IH]; intros [|y b] [|z c]; simpl; try congruence.
  unfold Ascii.compare.
  destruct (N.compare_spec (N_of_ascii x) (N_of_ascii y)) as [E1|L1|G1];
    destruct (N.compare_spec (N_of_ascii y) (N_of_ascii z)) as [E2|L2|G2];
    destruct (N.compare_spec (N_of_ascii x) (N_of_ascii z)) as [E3|L3|G3];
    try congruence; try lia.
  apply IH.
Qed.

Lemma leb_false_le (a b : string) :
  String.leb a b = false -> String.leb b a = true.
Proof.
  intros H. destruct (String.leb_total a b) as [H'|H']; congruence.
Qed.

Lemma insertByName_Permutation (c : Category.t) (l : list Category.t) :
  Permutation (insertByName c l) (c :: l).
Proof.
  induction l as [|d l IH]; simpl; [reflexivity|].
  destruct (String.leb _ _); [reflexivity|].
  rewrite IH. apply perm_swap.
Qed.

Lemma sortByName_Permutation (l : list Category.t) :
  Permutation (sortByName l) l.
Proof.
  induction l as [|c l IH]; simpl; [reflexivity|].
  rewrite insertByName_Permutation. now constructor.
Qed.

Lemma Forall_insertByName (P : Category.t -> Prop) (c : Category.t) (l : list Category.t) :
  P c -> Forall P l -> Forall P (insertByName c l).
Proof.
  intros Hc Hl.
  eapply Permutation_Forall; [symmetry; apply insertByName_Permutation|].
  now constructor.
Qed.

Lemma insertByName_sorted (c : Category.t) (l : list Category.t) :
  StronglySorted byName l -> StronglySorted byName (insertByName c l).
Proof.
  induction 1 as [|d l Hl IH Hd]; simpl.
  - constructor; constructor.
  - destruct (String.leb (Category.name c) (Category.name d)) eqn:E.
    + constructor; [now constructor|].
      constructor; [exact E|].
      eapply Forall_impl; [|exact Hd].
      intros e He. unfold byName, lexLe in *. eapply leb_trans; eassumption.
    + constructor; [exact IH|].
      apply Forall_insertByName; [|exact Hd].
      now apply leb_false_le.
Qed.

Lemma sortByName_sorted (l : list Category.t) :
  StronglySorted byName (sortByName l).
Proof.
  induction l as [|c l IH]; simpl; [constructor|].
  now apply insertByName_sorted.
Qed.

Lemma StronglySorted_map_name (l : list Category.t) :
  StronglySorted byName l -> StronglySorted lexLe (map Category.name l).
Proof.
  induction 1 as [|c l Hl IH Hc]; simpl; constructor; [assumption|].
  rewrite Forall_map. exact Hc.
Qed.

(** C9: the list route answers 200 with an array of strings and nothing
    else; the strings are the names of all stored categories, each as often
    as it is stored, in ascending lexicographic order. The store is left as
    it is. *)
Theorem get_sorted_names (db : Db) :
  exists names,
    get db = (db, mkResponse 200 (JArray (map JString names))) /\
    Permutation names (map Category.name (categories db)) /\
    StronglySorted lexLe names.
Proof.
  exists (map Category.name (sortByName (categories db))). split; [|split].
  - unfold get, Category_find_sort_name. now rewrite map_map.
  - apply Permutation_map, sortByName_Permutation.
  - apply StronglySorted_map_name, sortByName_sorted.
Qed.

Example get_sample :
  get (mkDb [] [Category.mk "1" "work" Sample.epoch;
                Category.mk "2" "home" Sample.epoch;
                Category.mk "3" "personal" Sample.epoch])
  = (mkDb [] [Category.mk "1" "work" Sample.epoch;
              Category.mk "2" "home" Sample.epoch;
              Category.mk "3" "personal" Sample.epoch],
     mkResponse 200 (JArray [JString "home"; JString "personal"; JString "work"])).
Proof. reflexivity. Qed.

End ListFacts.

(** ** Task create and update *)

Section TaskFacts.

Import Spec Store.

Lemma withDates_id (data : Task.t) : Api.withDates data = data.
Proof. destruct data as [? ? ? ? ? [d|] ? ?]; reflexivity. Qed.

Lemma find_replaceFirst {A : Type} (p : A -> bool) (y : A) (l : list A) :
  p y = true -> find p l <> None -> find p (replaceFirst p y l) = Some y.
Proof.
  intros Hy. induction l as [|x l IH]; simpl; [congruence|].
  destruct (p x) eqn:E; simpl.
  - now rewrite Hy.
  - now rewrite E.
Qed.

Lemma find_replaceFirst_other {A : Type} (p q : A -> bool) (y : A) (l : list A) :
  q y = false -> (forall x, p x = true -> q x = false) ->
  find q (replaceFirst p y l) = find q l.
Proof.
  intros Hy Hpq. induction l as [|x l IH]; simpl; [reflexivity|].
  destruct (p x) eqn:E; simpl.
  - now rewrite Hy, (Hpq x E).
  - now rewrite IH.
Qed.

Lemma length_replaceFirst {A : Type} (p : A -> bool) (y : A) (l : list A) :
  List.length (replaceFirst p y l) = List.length l.
Proof.
  induction l as [|x l IH]; simpl; [reflexivity|].
  destruct (p x); simpl; congruence.
Qed.

Lemma hasId_applyFields (id : string) (patch : PartialTaskDto.t) (old : Task.t) :
  TaskService.hasId id (TaskService.applyFields patch old) = TaskService.hasId id old.
Proof. reflexivity. Qed.

(** An update of an existing task goes through as soon as the title that
    results is not empty. *)
Lemma update_succeeds (db : Db) (id : string) (patch : PartialTaskDto.t) (old : Task.t) :
  find (TaskService.hasId id) (tasks db) = Some old ->
  fieldAfter Task.setTitle (PartialTaskDto.title patch) (Task.title old) <> "" ->
  exists db' updated, TaskService.update db id patch = (db', inr updated).
Proof.
  intros Hfind Htitle. unfold TaskService.update. rewrite Hfind.
  unfold Task.validate. cbn [TaskService.applyFields Task.title].
  unfold fieldAfter in Htitle.
  destruct (JsString.truthy _) eqn:T; [eauto|].
  apply truthy_false_iff in T. contradiction.
Qed.

(** A successful update returns the stored task with the fields applied
    and puts it in the place of the first task of that identifier. *)
Lemma update_inv (db db' : Db) (id : string) (patch : PartialTaskDto.t)
    (old updated : Task.t) :
  find (TaskService.hasId id) (tasks db) = Some old ->
  TaskService.update db id patch = (db', inr updated) ->
  updated = TaskService.applyFields patch old /\
  db' = withTasks db (replaceFirst (TaskService.hasId id) updated (tasks db)) /\
  find (TaskService.hasId id) (tasks db') = Some updated.
Proof.
  intros Hfind Hupd. unfold TaskService.update in Hupd. rewrite Hfind in Hupd.
  destruct (Task.validate _); [discriminate|].
  injection Hupd as <- <-. split; [reflexivity|]. split; [reflexivity|].
  cbn [tasks withTasks]. apply find_replaceFirst.
  - rewrite hasId_applyFields. now apply find_some in Hfind.
  - congruence.
Qed.

(** C4, amended: when Task Update of an existing task succeeds, the record
    it returns is the one now stored under the identifier; each supplied
    field holds the supplied value as [taskSchema] stores it, which is the
    value itself for [completed], [priority], [dueDate] and [category] and
    the trimmed value for [title] and [description]; each field left out
    holds its prior value; [_id] and [createdAt] are the prior ones. *)
Theorem update_frame (db db' : Db) (id : string) (patch : PartialTaskDto.t)
    (old updated : Task.t) :
  find (TaskService.hasId id) (tasks db) = Some old ->
  TaskService.update db id patch = (db', inr updated) ->
  find (TaskService.hasId id) (tasks db') = Some updated /\
  Task.title updated
    = fieldAfter JsString.trim (PartialTaskDto.title patch) (Task.title old) /\
  Task.description updated
    = fieldAfter JsString.trim (PartialTaskDto.description patch) (Task.description old) /\
  Task.completed updated
    = fieldAfter verbatim (PartialTaskDto.completed patch) (Task.completed old) /\
  Task.priority updated
    = fieldAfter verbatim (PartialTaskDto.priority patch) (Task.priority old) /\
  Task.dueDate updated
    = fieldAfter verbatim (PartialTaskDto.dueDate patch) (Task.dueDate old) /\
  Task.category updated
    = fieldAfter verbatim (PartialTaskDto.category patch) (Task.category old) /\
  Task._id updated = Task._id old /\
  Task.createdAt updated = Task.createdAt old.
Proof.
  intros Hfind Hupd.
  destruct (update_inv _ _ _ _ _ _ Hfind Hupd) as [-> [_ Hstored]].
  split; [exact Hstored | repeat split].
Qed.

(** C4, as stated, fails: a title supplied with blanks around it is not the
    title of the updated record. *)
Lemma update_title_not_verbatim :
  exists db' updated,
    TaskService.update Sample.withWork "t1" Sample.retitle = (db', inr updated) /\
    PartialTaskDto.title Sample.retitle = Some "  Draft  " /\
    Task.title updated <> "  Draft  ".
Proof.
  eexists. eexists. split; [reflexivity|]. split; [reflexivity|]. discriminate.
Qed.

(** The update leaves every other task, and the categories, as they were. *)
Lemma update_others (db db' : Db) (id id' : string) (patch : PartialTaskDto.t)
    (r : TaskService.ServiceError + Task.t) :
  TaskService.update db id patch = (db', r) ->
  id' <> id ->
  find (TaskService.hasId id') (tasks db') = find (TaskService.hasId id') (tasks db) /\
  List.length (tasks db') = List.length (tasks db) /\
  categories db' = categories db.
Proof.
  intros Hupd Hne. unfold TaskService.update in Hupd.
  destruct (find _ _) as [old|] eqn:Hfind.
  - destruct (Task.validate _).
    + injection Hupd as <- _. auto.
    + injection Hupd as <- _. cbn [tasks withTasks categories]. split; [|split].
      * apply find_replaceFirst_other.
        -- rewrite hasId_applyFields. apply find_some in Hfind as [_ H].
           unfold TaskService.hasId in *. apply String.eqb_eq in H.
           apply String.eqb_neq. congruence.
        -- intros x Hx. unfold TaskService.hasId in *.
           apply String.eqb_eq in Hx. apply String.eqb_neq. congruence.
      * apply length_replaceFirst.
      * reflexivity.
  - injection Hupd as <- _. auto.
Qed.

(** What [saveEditedTask] sends: all six editable fields of the task being
    edited, so that the stored record becomes that task, with title and
    description trimmed, under the identifier and the creation date the
    store already had. *)
Lemma saveEditedTask_updates (db : Db) (s : App.State) (editing old : Task.t) :
  App.editingTask s = Some editing ->
  find (TaskService.hasId (Task._id editing)) (tasks db) = Some old ->
  JsString.trim (Task.title editing) <> "" ->
  let updated :=
    Task.mk (Task._id old) (JsString.trim (Task.title editing))
            (JsString.trim (Task.description editing)) (Task.completed editing)
            (Task.priority editing) (Task.dueDate editing) (Task.createdAt old)
            (Task.category editing) in
  exists db' s',
    App.saveEditedTask (db, s)
    = ((db', s'),
       Some (App.mkToast "Task updated" "Your task has been updated successfully" false)) /\
    find (TaskService.hasId (Task._id editing)) (tasks db') = Some updated /\
    App.editingTask s' = None /\
    App.tasks s'
    = map (fun task => if String.eqb (Task._id task) (Task._id editing)
                       then updated else task) (App.tasks s).
Proof.
  intros Hedit Hfind Htitle updated.
  destruct (update_succeeds db (Task._id editing) (App.taskData editing) old Hfind)
    as [db' [u Hupd]]; [exact Htitle|].
  destruct (update_inv _ _ _ _ _ _ Hfind Hupd) as [Hu [_ Hstored]].
  change (TaskService.applyFields (App.taskData editing) old) with updated in Hu.
  subst u.
  unfold App.saveEditedTask. rewrite Hedit.
  apply truthy_true_iff in Htitle. rewrite Htitle. cbn [negb].
  unfold Api.updateTask. rewrite Hupd. cbn [Api.ofService].
  rewrite withDates_id.
  eexists. eexists. split; [reflexivity|]. repeat split. exact Hstored.
Qed.

(** C6: a candidate whose title is empty or all white space is refused by
    the service with [ValidationError], and the store is the one it was;
    [handleAddTask] does not even send it: it raises the error toast and
    leaves the store and the component state as they were. *)
Theorem create_blank_title (env : Env) (db : Db) (s : App.State)
    (candidate : CreateTaskDto.t) :
  isBlank (CreateTaskDto.title candidate) = true ->
  TaskService.create env db candidate = (db, inl TaskService.ValidationError) /\
  Api.createTask env db candidate = (db, Api.Throw 400) /\
  App.handleAddTask env (db, App.setNewTask candidate s)
  = ((db, App.setNewTask candidate s),
     Some (App.mkToast "Error" "Task title cannot be empty" true)).
Proof.
  intros Hblank. apply trim_empty_iff in Hblank.
  assert (Hc : TaskService.create env db candidate
               = (db, inl TaskService.ValidationError)).
  { unfold TaskService.create, Task.validate.
    cbn [TaskService.newTask Task.title]. unfold Task.setTitle.
    now rewrite Hblank. }
  split; [exact Hc|]. split.
  - unfold Api.createTask. now rewrite Hc.
  - unfold App.handleAddTask. cbn [App.newTask App.setNewTask].
    now rewrite Hblank.
Qed.

End TaskFacts.

(** ** The theorems at work on sample data *)

Section Instances.

Import Spec Store CategoryRoutes.

(** C5, as stated, fails: the body of a successful create is not an object
    with the single field [name]. *)
Lemma post_body_not_name_only :
  exists db' r,
    post true Sample.env1 Sample.emptyDb (Some "Work") = (db', r) /\
    status r = 201 /\
    keys (body r) = ["_id"; "name"; "createdAt"; "__v"] /\
    body r <> JObject [("name", JString "work")].
Proof.
  eexists. eexists. split; [reflexivity|]. repeat split. discriminate.
Qed.

(** " Work " is refused on a store that holds "work", here by the unique
    index, the look-up having been made with the untrimmed name. *)
Lemma post_duplicate_conflict_witness :
  schemaValid Sample.withWork /\
  In Sample.work (categories Sample.withWork) /\
  exists r,
    post false Sample.env1 Sample.withWork (Some " Work ") = (Sample.withWork, r) /\
    isConflict r.
Proof.
  assert (V : schemaValid Sample.withWork) by (repeat constructor).
  assert (I : In Sample.work (categories Sample.withWork)) by (simpl; auto).
  split; [exact V|]. split; [exact I|].
  exact (post_duplicate_conflict false Sample.env1 Sample.withWork " Work "
           Sample.work V I eq_refl).
Defined.

Lemma post_created_witness :
  Api.createCategory true Sample.env1 Sample.emptyDb " Work "
  = (mkDb [] [Category.mk "c1" "work" (JsDate.DateAt 1700000000000)],
     Api.Ok (JString "work")).
Proof.
  exact (proj2 (proj2 (proj2 (proj2
           (post_created true Sample.env1 Sample.emptyDb
              (mkDb [] [Category.mk "c1" "work" (JsDate.DateAt 1700000000000)])
              " Work "
              (mkResponse 201
                 (Category.toJSON
                    (Category.mk "c1" "work" (JsDate.DateAt 1700000000000))))
              eq_refl eq_refl))))).
Defined.

Lemma reachable_unique_names_witness :
  uniqueLowercasedNames
    (fst (handle true
            (fst (handle true Sample.emptyDb (POST Sample.env1 (Some "Work"))))
            (POST Sample.env2 (Some " Home")))).
Proof.
  refine (proj1 (reachable_unique_names true _ _)).
  apply reachable_step, reachable_step. exact (reachable_init true []).
Defined.

Lemma update_frame_witness :
  let updated :=
    Task.mk "t1" "Draft" "" false Task.high None Sample.epoch "work" in
  Task.title updated = "Draft" /\
  Task.priority updated = Task.priority Sample.first /\
  Task._id updated = Task._id Sample.first /\
  Task.createdAt updated = Task.createdAt Sample.first.
Proof.
  intros updated.
  destruct (update_frame Sample.withWork (mkDb [updated] [Sample.work]) "t1"
              Sample.retitle Sample.first updated eq_refl eq_refl)
    as [_ [Ht [_ [_ [Hp [_ [_ [Hid Hcreated]]]]]]]].
  repeat split; assumption.
Defined.

Lemma create_blank_title_witness :
  isBlank (CreateTaskDto.title Sample.blankCandidate) = true /\
  TaskService.create Sample.env1 Sample.withWork Sample.blankCandidate
  = (Sample.withWork, inl TaskService.ValidationError).
Proof.
  split; [reflexivity|].
  exact (proj1 (create_blank_title Sample.env1 Sample.withWork App.initialState
                  Sample.blankCandidate eq_refl)).
Defined.

End Instances.

(* ================================================================= *)
(** * Further properties *)

(** ** More on strings *)

Section MoreStringFacts.

Import JsString Spec.





Lemma trimStart_head (c : ascii) (s : string) :
  isWhiteSpace c = false -> trimStart (String c s) = String c s.
Proof. intros H. simpl. now rewrite H. Qed.

Lemma trimStart_shape (s : string) :
  trimStart s = "" \/
  exists c t, trimStart s = String c t /\ isWhiteSpace c = false.
Proof.
  induction s as [|c s IH]; simpl; [now left|].
  destruct (isWhiteSpace c) eqn:E; [exact IH|]. right. eauto.
Qed.

Lemma trimEnd_head (c : ascii) (s : string) :
  isWhiteSpace c = false -> exists t, trimEnd (String c s) = String c t.
Proof.
  intros H. simpl. rewrite H. destruct (trimEnd s); eauto.
Qed.

Lemma trimEnd_cons (c : ascii) (s : string) :
  trimEnd (String c s)
  = match trimEnd s with
    | EmptyString => if isWhiteSpace c then EmptyString else String c EmptyString
    | t => String c t
    end.
Proof. reflexivity. Qed.

Lemma trimEnd_idem (s : string) : trimEnd (trimEnd s) = trimEnd s.
Proof.
  induction s as [|c s IH]; [reflexivity|].
  rewrite trimEnd_cons.
  destruct (trimEnd s) as [|d t] eqn:E.
  - destruct (isWhiteSpace c) eqn:W; [reflexivity|].
    rewrite trimEnd_cons. simpl. now rewrite W.
  - rewrite trimEnd_cons, IH. reflexivity.
Qed.

Lemma trim_idem (s : string) : trim (trim s) = trim s.
Proof.
  unfold trim.
  destruct (trimStart_shape s) as [-> | [c [t [-> W]]]]; [reflexivity|].
  destruct (trimEnd_head c t W) as [u Hu]. rewrite Hu.
  rewrite (trimStart_head c u W), <- Hu. apply trimEnd_idem.
Qed.

Lemma setName_idem (v : string) :
  Category.setName (Category.setName v) = Category.setName v.
Proof.
  unfold Category.setName.
  now rewrite <- (toLowerCase_trim (toLowerCase v)), toLowerCase_idem, trim_idem.
Qed.

Lemma trim_not_empty (s : string) :
  trim s <> "" <-> JsString.truthy (trim s) = true.
Proof. symmetry. apply truthy_true_iff. Qed.

End MoreStringFacts.

(** ** More on [filteredTasks] *)

Section MoreFiltering.

Import Spec.

Lemma filter_all {A : Type} (f : A -> bool) (l : list A) :
  (forall x, f x = true) -> filter f l = l.
Proof.
  intros H. induction l as [|x l IH]; simpl; [reflexivity|].
  now rewrite H, IH.
Qed.



(** X1: under the tab "all" and with an empty search box, the view shows
    the whole task list, in its order. *)
Theorem filteredTasks_all_empty (tasks : list Task.t) :
  App.filteredTasks tasks "all" "" = tasks.
Proof.
  apply filter_all. intros task.
  unfold App.matchesTab, App.matchesSearch. simpl.
  now rewrite includes_empty.
Qed.

(** X2: the letter case of the search string does not matter: a search
    string and its lowercased form select the same tasks. *)
Theorem filteredTasks_search_case (tasks : list Task.t) (activeTab searchQuery : string) :
  App.filteredTasks tasks activeTab (JsString.toLowerCase searchQuery)
  = App.filteredTasks tasks activeTab searchQuery.
Proof.
  unfold App.filteredTasks, App.matchesSearch.
  now rewrite toLowerCase_idem.
Qed.


(** X4: the tabs "active" and "completed" together show what "all" shows:
    a task is listed under "all" exactly when it is listed under one of the
    two. *)
Theorem filteredTasks_active_or_completed (tasks : list Task.t) (q : string)
    (task : Task.t) :
  In task (App.filteredTasks tasks "all" q) <->
  In task (App.filteredTasks tasks "active" q) \/
  In task (App.filteredTasks tasks "completed" q).
Proof.
  unfold App.filteredTasks. rewrite !filter_In.
  unfold App.matchesTab. simpl.
  destruct (Task.completed task); simpl;
    destruct (App.matchesSearch q task); simpl;
    rewrite ?andb_false_r, ?andb_true_r, ?orb_false_r, ?orb_true_r; tauto.
Qed.

End MoreFiltering.

(** ** More on [getDueDateStatus] *)

Section MoreDueDates.

Import Spec JsDate.

Variable LocalTZA : Z -> bool -> Z.

(** X5: in any time zone, for dates that [TimeClip] leaves alone, the four
    answers are cut out by the distance between the local midnight of the
    due date and that of today: negative, zero, at most 48 hours, more. *)
Theorem getDueDateStatus_thresholds (clock due : Z) :
  inRange clock ->
  inRange (localMidnight LocalTZA clock) ->
  inRange (localMidnight LocalTZA due) ->
  let diffTime := localMidnight LocalTZA due - localMidnight LocalTZA clock in
  let status := App.getDueDateStatus LocalTZA clock (Some (DateAt due)) in
  (status = Some App.Overdue <-> diffTime < 0) /\
  (status = Some App.Today <-> diffTime = 0) /\
  (status = Some App.Soon <-> 0 < diffTime <= 48 * 3600000) /\
  (status = Some App.Future <-> 48 * 3600000 < diffTime).
Proof.
  intros Hc Hm0 Hm1 diffTime status. unfold status.
  rewrite (getDueDateStatus_by_midnights LocalTZA clock due Hc Hm0 Hm1).
  fold diffTime. unfold classifyByMidnights, msPerDay.
  destruct (Z.ltb_spec diffTime 0); destruct (Z.eqb_spec diffTime 0);
    destruct (Z.leb_spec diffTime (2 * 86400000));
    repeat split; intros; try discriminate; try lia; reflexivity.
Qed.

(** X6: the time of day plays no part: two clock readings on the same
    local day, and two due dates on the same local day, get the same
    answer. *)
Theorem getDueDateStatus_time_of_day (clock clock' due due' : Z) :
  inRange clock -> inRange clock' ->
  localDay LocalTZA clock = localDay LocalTZA clock' ->
  localDay LocalTZA due = localDay LocalTZA due' ->
  App.getDueDateStatus LocalTZA clock (Some (DateAt due))
  = App.getDueDateStatus LocalTZA clock' (Some (DateAt due')).
Proof.
  intros Hc Hc' Hclock Hdue. unfold App.getDueDateStatus.
  rewrite (TimeClip_inRange clock Hc), (TimeClip_inRange clock' Hc').
  rewrite !setHours0_localMidnight. unfold localMidnight.
  now rewrite Hclock, Hdue.
Qed.

End MoreDueDates.

(** ** More on the category routes *)

Section MoreCategoryFacts.

Import Spec PageSpec Store CategoryRoutes.

Variable runSettersOnQuery : bool.

Lemma find_app_none {A : Type} (p : A -> bool) (l1 l2 : list A) :
  (forall x, In x l1 -> p x = false) -> find p (l1 ++ l2) = find p l2.
Proof.
  induction l1 as [|x l1 IH]; simpl; intros H; [reflexivity|].
  rewrite (H x (or_introl eq_refl)). apply IH. auto.
Qed.

Lemma removeFirst_app_none {A : Type} (p : A -> bool) (l1 l2 : list A) :
  (forall x, In x l1 -> p x = false) ->
  removeFirst p (l1 ++ l2) = (l1 ++ removeFirst p l2)%list.
Proof.
  induction l1 as [|x l1 IH]; simpl; intros H; [reflexivity|].
  rewrite (H x (or_introl eq_refl)). f_equal. apply IH. auto.
Qed.

Lemma NoDup_map_eq {A B : Type} (f : A -> B) (l : list A) (a b : A) :
  NoDup (map f l) -> In a l -> In b l -> f a = f b -> a = b.
Proof.
  induction l as [|x l IH]; simpl; intros Hnd Ha Hb Hf; [contradiction|].
  inversion Hnd as [|? ? Hx Hl]; subst.
  destruct Ha as [<- | Ha]; destruct Hb as [<- | Hb]; auto.
  - exfalso. apply Hx. rewrite Hf. now apply in_map.
  - exfalso. apply Hx. rewrite <- Hf. now apply in_map.
Qed.

(** The name that a look-up for [v] compares with, when [v] is a lowercased
    string without white space around it. *)
Lemma castNameFilter_plain (n : string) :
  JsString.trim n = n ->
  castNameFilter runSettersOnQuery (JsString.toLowerCase n) = JsString.toLowerCase n.
Proof.
  intros H. unfold castNameFilter. destruct runSettersOnQuery; [|reflexivity].
  now rewrite setName_toLowerCase, H.
Qed.

Lemma withCategories_same (db : Db) : withCategories db (categories db) = db.
Proof. destruct db; reflexivity. Qed.

(** A create whose name is stored already, under any of its spellings, is
    refused and changes nothing. *)
Lemma post_refuses_stored (env : Env) (db : Db) (m : string) :
  JsString.toLowerCase (JsString.trim m) <> "" ->
  In (JsString.toLowerCase (JsString.trim m)) (map Category.name (categories db)) ->
  exists text, post runSettersOnQuery env db (Some m)
               = (db, mkResponse 400 (message text)).
Proof.
  intros Hne Hin.
  destruct (post_inv runSettersOnQuery env db (Some m))
    as [H | [n [Hn [_ [_ Hfresh]]]]]; [exact H|].
  injection Hn as <-. rewrite new_name in Hfresh. contradiction.
Qed.

(** X8: a candidate name that is empty or all white space is refused with
    status 400, whatever the store holds, and the store is left as it
    is. *)
Theorem post_blank (env : Env) (db : Db) (n : string) :
  isBlank n = true ->
  exists text, post runSettersOnQuery env db (Some n)
               = (db, mkResponse 400 (message text)).
Proof.
  intros Hblank. apply trim_empty_iff in Hblank.
  destruct (post_inv runSettersOnQuery env db (Some n))
    as [H | [n' [Hn [_ [V _]]]]]; [exact H|].
  injection Hn as <-. unfold Category.validate in V.
  rewrite new_name, Hblank in V. discriminate V.
Qed.

(** X9: a create never touches a task nor a category that is stored: the
    categories afterwards are those before, followed by at most one new
    document, and there is a new document exactly when the answer is 201;
    the only other answer is 400. *)
Theorem post_appends (env : Env) (db : Db) (name : option string) :
  let db' := fst (post runSettersOnQuery env db name) in
  let r := snd (post runSettersOnQuery env db name) in
  tasks db' = tasks db /\
  exists added,
    categories db' = (categories db ++ added)%list /\
    (List.length added <= 1)%nat /\
    (status r = 201 /\ added <> [] \/ status r = 400 /\ added = []).
Proof.
  destruct (post_inv runSettersOnQuery env db name) as [[text H] | [n [_ [H _]]]];
    rewrite H; cbn [fst snd].
  - split; [reflexivity|]. exists []. rewrite app_nil_r. simpl. auto.
  - split; [reflexivity|]. eexists. split; [reflexivity|]. simpl.
    split; [auto|]. left. split; [reflexivity | discriminate].
Qed.

(** X10: deleting a name that is not stored, neither as it is lowercased
    nor lowercased and trimmed, answers 404 and leaves the store as it
    is. *)
Theorem delete_absent (db : Db) (name : string) :
  ~ In (JsString.toLowerCase name) (map Category.name (categories db)) ->
  ~ In (JsString.toLowerCase (JsString.trim name)) (map Category.name (categories db)) ->
  delete runSettersOnQuery db name
  = (db, mkResponse 404 (message "Category not found")).
Proof.
  intros H1 H2. unfold delete.
  destruct (Category_findOne _ _ _) as [c|] eqn:F; [|reflexivity].
  exfalso. unfold Category_findOne in F. apply find_some in F as [Hin Heq].
  apply String.eqb_eq in Heq. unfold castNameFilter in Heq.
  destruct runSettersOnQuery.
  - rewrite setName_toLowerCase in Heq. apply H2. rewrite <- Heq. now apply in_map.
  - apply H1. rewrite <- Heq. now apply in_map.
Qed.

(** X11: deleting a stored category, named in any letter case, answers 200
    and takes out that category and no other; the rest keeps its order and
    the name is no longer stored. This needs identifiers and names to be
    unique in the store. *)
Theorem delete_present (db : Db) (name : string) (c : Category.t) :
  uniqueIds db ->
  NoDup (map Category.name (categories db)) ->
  JsString.trim name = name ->
  In c (categories db) ->
  Category.name c = JsString.toLowerCase name ->
  exists l1 l2,
    categories db = (l1 ++ c :: l2)%list /\
    delete runSettersOnQuery db name
    = (withCategories db (l1 ++ l2), mkResponse 200 (message "Category deleted")) /\
    ~ In (JsString.toLowerCase name) (map Category.name (l1 ++ l2)).
Proof.
  intros Hids Hnames Htrim Hin Hname.
  destruct (in_split c (categories db) Hin) as [l1 [l2 Hsplit]].
  exists l1, l2. split; [exact Hsplit|].
  assert (Hfind : Category_findOne runSettersOnQuery db (JsString.toLowerCase name)
                  = Some c).
  { unfold Category_findOne. rewrite (castNameFilter_plain name Htrim).
    destruct (find _ _) as [c'|] eqn:F.
    - apply find_some in F as [Hin' Heq]. apply String.eqb_eq in Heq.
      f_equal. apply (NoDup_map_eq Category.name (categories db)); auto.
      congruence.
    - exfalso. apply (find_none _ _ F) in Hin.
      apply String.eqb_neq in Hin. contradiction. }
  unfold uniqueIds in Hids. rewrite Hsplit, map_app in Hids, Hnames.
  simpl in Hids, Hnames.
  split.
  - unfold delete. rewrite Hfind. unfold Category_findByIdAndDelete.
    rewrite Hsplit. f_equal. f_equal.
    rewrite removeFirst_app_none.
    + simpl. now rewrite String.eqb_refl.
    + intros x Hx. apply String.eqb_neq. intros Heq.
      apply NoDup_remove_2 in Hids. apply Hids.
      rewrite in_app_iff. left. rewrite <- Heq. now apply in_map.
  - apply NoDup_remove_2 in Hnames. rewrite map_app, <- Hname. exact Hnames.
Qed.

(** X12: a create that succeeds, followed by the delete of the same name,
    gives the store back as it was, provided the name has no white space
    around it and the new identifier was not in use. *)
Theorem post_then_delete (env : Env) (db db' : Db) (n : string) (r : Response) :
  post runSettersOnQuery env db (Some n) = (db', r) ->
  status r = 201 ->
  JsString.trim n = n ->
  ~ In (objectId env) (map Category._id (categories db)) ->
  delete runSettersOnQuery db' n
  = (db, mkResponse 200 (message "Category deleted")).
Proof.
  intros Hpost Hstatus Htrim Hid.
  destruct (post_inv runSettersOnQuery env db (Some n))
    as [[text H] | [n' [Hn [H [_ Hfresh]]]]];
    rewrite H in Hpost; injection Hpost as <- <-; [discriminate Hstatus|].
  injection Hn as <-. set (created := Category.new env (JsString.toLowerCase n)) in *.
  assert (Hname : Category.name created = JsString.toLowerCase n).
  { unfold created. now rewrite new_name, Htrim. }
  unfold delete, Category_findOne. rewrite (castNameFilter_plain n Htrim).
  cbn [categories withCategories]. rewrite find_app_none.
  - cbn [find]. rewrite Hname, String.eqb_refl.
    unfold Category_findByIdAndDelete. cbn [categories withCategories].
    rewrite removeFirst_app_none.
    + cbn [removeFirst]. rewrite String.eqb_refl, app_nil_r.
      f_equal. destruct db; reflexivity.
    + intros x Hx. apply String.eqb_neq. intros Heq. apply Hid.
      change (Category._id created) with (objectId env) in Heq.
      rewrite <- Heq. now apply in_map.
  - intros x Hx. apply String.eqb_neq. intros Heq. apply Hfresh.
    rewrite Hname, <- Heq. now apply in_map.
Qed.

(** X13: after a create that succeeds, the list route lists the new name,
    lowercased and trimmed. *)
Theorem post_then_get (env : Env) (db db' : Db) (n : string) (r : Response) :
  post runSettersOnQuery env db (Some n) = (db', r) ->
  status r = 201 ->
  exists items,
    get db' = (db', mkResponse 200 (JArray items)) /\
    In (JString (JsString.toLowerCase (JsString.trim n))) items.
Proof.
  intros Hpost Hstatus.
  destruct (post_inv runSettersOnQuery env db (Some n))
    as [[text H] | [n' [Hn [H _]]]];
    rewrite H in Hpost; injection Hpost as <- <-; [discriminate Hstatus|].
  injection Hn as <-. eexists. split; [reflexivity|].
  rewrite <- new_name with (env := env).
  apply (in_map (fun category => JString (Category.name category))).
  unfold Category_find_sort_name.
  eapply Permutation_in; [symmetry; apply sortByName_Permutation|].
  cbn [categories withCategories]. rewrite in_app_iff. right. now left.
Qed.

(** X15: once a name has been created, a create of any spelling of it, in
    other letter case or with white space around it, is refused with
    status 400 and changes nothing. *)
Theorem post_twice (env env' : Env) (db db' : Db) (n m : string) (r : Response) :
  post runSettersOnQuery env db (Some n) = (db', r) ->
  status r = 201 ->
  JsString.toLowerCase (JsString.trim m) = JsString.toLowerCase (JsString.trim n) ->
  exists text, post runSettersOnQuery env' db' (Some m)
               = (db', mkResponse 400 (message text)).
Proof.
  intros Hpost Hstatus Hsame.
  destruct (post_inv runSettersOnQuery env db (Some n))
    as [[text H] | [n' [Hn [H [V _]]]]];
    rewrite H in Hpost; injection Hpost as <- <-; [discriminate Hstatus|].
  injection Hn as <-. unfold Category.validate in V. rewrite new_name in V.
  apply post_refuses_stored; rewrite Hsame.
  - intros E. rewrite E in V. discriminate V.
  - cbn [categories withCategories]. rewrite map_app, in_app_iff. right.
    simpl. left. apply setName_toLowerCase.
Qed.

Lemma handle_normalised (db : Db) (req : Request) :
  normalised db -> normalised (fst (handle runSettersOnQuery db req)).
Proof.
  unfold normalised. intros Hn. destruct req as [|env name|name]; simpl.
  - exact Hn.
  - destruct (post_inv runSettersOnQuery env db name)
      as [[text H] | [n [_ [H [V _]]]]]; rewrite H; cbn [fst]; [exact Hn|].
    cbn [categories withCategories]. apply Forall_app. split; [exact Hn|].
    constructor; [|constructor]. split.
    + apply setName_idem.
    + unfold Category.validate in V. apply truthy_true_iff.
      destruct (JsString.truthy _); [reflexivity | discriminate V].
  - unfold delete. destruct (Category_findOne _ _ _); cbn [fst]; [|exact Hn].
    now apply Forall_removeFirst.
Qed.

Lemma reachable_normalised (db : Db) :
  reachable runSettersOnQuery db -> normalised db.
Proof.
  induction 1 as [ts | db req _ IH].
  - constructor.
  - now apply handle_normalised.
Qed.

Lemma setName_fixed (v : string) :
  Category.setName v = v -> JsString.trim v = v /\ JsString.toLowerCase v = v.
Proof.
  intros H. split.
  - rewrite <- H at 1. unfold Category.setName. rewrite trim_idem. exact H.
  - rewrite <- H at 1. rewrite toLowerCase_setName. exact H.
Qed.

(** X14: in every store that requests to the category service bring about
    from the empty collection, the list route sends no name twice, and each
    name it sends is lowercased, has no white space around it and is not
    empty. *)
Theorem reachable_get_names (db : Db) :
  reachable runSettersOnQuery db ->
  exists names,
    get db = (db, mkResponse 200 (JArray (map JString names))) /\
    NoDup names /\
    Forall (fun v => JsString.toLowerCase v = v /\ JsString.trim v = v /\ v <> "")
           names.
Proof.
  intros Hreach.
  exists (map Category.name (sortByName (categories db))). split; [|split].
  - unfold get, Category_find_sort_name. now rewrite map_map.
  - apply reachable_storeInvariant in Hreach as [_ Hnodup].
    eapply Permutation_NoDup; [|exact Hnodup].
    apply Permutation_map. symmetry. apply sortByName_Permutation.
  - apply reachable_normalised in Hreach. unfold normalised in Hreach.
    rewrite Forall_map.
    eapply Permutation_Forall; [symmetry; apply sortByName_Permutation|].
    eapply Forall_impl; [|exact Hreach].
    intros c [Hset Hne]. apply setName_fixed in Hset. tauto.
Qed.

End MoreCategoryFacts.

(** ** The category dialog and the mount effect *)

Section PageFacts.

Import Spec PageSpec Store.

Variable runSettersOnQuery : bool.

Lemma includes_In (l : list string) (v : string) :
  Page.includes l v = true <-> In v l.
Proof.
  unfold Page.includes. rewrite existsb_exists. split.
  - intros [x [Hin H]]. apply String.eqb_eq in H. now subst.
  - intros H. exists v. split; [exact H | apply String.eqb_refl].
Qed.

Lemma blank_not_truthy (v : string) :
  negb (JsString.truthy (JsString.trim v)) = isBlank v.
Proof.
  destruct (isBlank v) eqn:B.
  - apply trim_empty_iff in B. now rewrite B.
  - destruct (JsString.trim v) eqn:T; [|reflexivity].
    apply trim_empty_iff in T. congruence.
Qed.

(** What [createCategory] of api.ts does to the store and hands back. *)
Lemma createCategory_inv (env : Env) (db : Db) (n : string) :
  (exists status, Api.createCategory runSettersOnQuery env db n
                  = (db, Api.Throw status)) \/
  (exists v,
     let created := Category.new env (JsString.toLowerCase n) in
     Api.createCategory runSettersOnQuery env db n
     = (withCategories db (categories db ++ [created]), Api.Ok v) /\
     ~ In (Category.name created) (map Category.name (categories db))).
Proof.
  unfold Api.createCategory.
  destruct (post_inv runSettersOnQuery env db (Some n))
    as [[text H] | [n' [Hn [H [_ Hfresh]]]]]; rewrite H.
  - left. eexists. reflexivity.
  - injection Hn as <-. right. eexists. split; [reflexivity | exact Hfresh].
Qed.

Lemma createCategory_fresh (env : Env) (db : Db) (n : string) :
  Forall (fun c => Category.setName (Category.name c) = Category.name c)
         (categories db) ->
  JsString.trim n <> "" ->
  ~ In (JsString.toLowerCase (JsString.trim n)) (map Category.name (categories db)) ->
  Api.createCategory runSettersOnQuery env db n
  = (withCategories db (categories db ++ [Category.new env (JsString.toLowerCase n)]),
     Api.Ok (JString (JsString.toLowerCase (JsString.trim n)))).
Proof.
  intros Hnames Hne Hfresh.
  destruct (post_fresh_succeeds runSettersOnQuery env db n Hnames Hne Hfresh)
    as [db1 Hpost].
  destruct (post_inv runSettersOnQuery env db (Some n))
    as [[text H] | [n' [Hn [H _]]]].
  { rewrite H in Hpost. discriminate Hpost. }
  injection Hn as <-. unfold Api.createCategory. rewrite H.
  cbn [CategoryRoutes.status CategoryRoutes.body].
  change (Api.succeeded 201) with true. cbv iota.
  unfold Category.toJSON. cbn [prop lookup String.eqb Ascii.eqb Bool.eqb].
  now rewrite new_name.
Qed.

(** X16: with a blank name in the dialog, or with a name whose lowercased
    form is among the tabs already, [handleAddCategory] sends nothing: it
    raises an error toast and leaves the store and the state as they are. *)
Theorem handleAddCategory_refuses (env : Env) (db : Db) (s : Page.State) :
  isBlank (Page.newCategory s) = true \/
  In (JsString.toLowerCase (Page.newCategory s)) (Page.categories s) ->
  exists toast,
    Page.handleAddCategory runSettersOnQuery env (db, s) = ((db, s), Some toast) /\
    App.destructive toast = true.
Proof.
  intros H. unfold Page.handleAddCategory. rewrite blank_not_truthy.
  destruct (isBlank (Page.newCategory s)) eqn:B.
  - eexists. split; reflexivity.
  - destruct H as [H|H]; [discriminate H|].
    apply includes_In in H. rewrite H. eexists. split; reflexivity.
Qed.

(** X17: tabs and store move in step: [handleAddCategory] either leaves the
    tabs and the stored categories as they are, or appends the lowercased
    name to the tabs and one document, named by the lowercased and trimmed
    name, to the store. It never touches a task of the store. *)
Theorem handleAddCategory_in_step (env : Env) (db : Db) (s : Page.State) :
  let w' := fst (Page.handleAddCategory runSettersOnQuery env (db, s)) in
  let n := Page.newCategory s in
  tasks (fst w') = tasks db /\
  (Page.categories (snd w') = Page.categories s /\
   categories (fst w') = categories db
   \/
   Page.categories (snd w') = (Page.categories s ++ [JsString.toLowerCase n])%list /\
   exists doc,
     categories (fst w') = (categories db ++ [doc])%list /\
     Category.name doc = JsString.toLowerCase (JsString.trim n)).
Proof.
  unfold Page.handleAddCategory.
  destruct (negb _); [simpl; auto|].
  destruct (Page.includes _ _); [simpl; auto|].
  cbn [Page.newCategory Page.setView].
  destruct (createCategory_inv env db (Page.newCategory s))
    as [[status H] | [v [H _]]]; rewrite H; cbn [fst snd].
  - split; [reflexivity|]. left. split; reflexivity.
  - split; [reflexivity|]. right. split; [reflexivity|].
    eexists. split; [reflexivity|]. apply new_name.
Qed.

(** X18: adding a category never makes two equal tabs: if no tab occurs
    twice before [handleAddCategory], none does after. *)
Theorem handleAddCategory_NoDup (env : Env) (db : Db) (s : Page.State) :
  NoDup (Page.categories s) ->
  NoDup (Page.categories (snd (fst (Page.handleAddCategory runSettersOnQuery env (db, s))))).
Proof.
  intros Hnd. unfold Page.handleAddCategory.
  destruct (negb _); [exact Hnd|].
  destruct (Page.includes _ _) eqn:I; [exact Hnd|].
  cbn [Page.newCategory Page.setView].
  destruct (createCategory_inv env db (Page.newCategory s))
    as [[status H] | [v [H _]]]; rewrite H; cbn [fst snd]; [exact Hnd|].
  cbn [Page.categories Page.setView Page.setCategories Page.setNewCategory
       Page.setIsCategoryDialogOpen].
  apply NoDup_snoc; [exact Hnd|].
  intros Hin. apply includes_In in Hin. congruence.
Qed.

(** X19: when the tabs are the names of the store, they still are after
    [handleAddCategory], provided the name typed has no white space around
    it and the stored names are as the schema's setters leave them. *)
Theorem handleAddCategory_sameNames (env : Env) (db : Db) (s : Page.State) :
  normalised db ->
  sameNames s db ->
  JsString.trim (Page.newCategory s) = Page.newCategory s ->
  let w' := fst (Page.handleAddCategory runSettersOnQuery env (db, s)) in
  sameNames (snd w') (fst w').
Proof.
  intros Hnorm Hsame Htrim. unfold Page.handleAddCategory.
  set (n := Page.newCategory s) in *.
  rewrite blank_not_truthy.
  destruct (isBlank n) eqn:B; [exact Hsame|].
  destruct (Page.includes _ _) eqn:I; [exact Hsame|].
  cbn [Page.newCategory Page.setView]. fold n.
  assert (Hfresh : ~ In (JsString.toLowerCase (JsString.trim n))
                        (map Category.name (categories db))).
  { rewrite Htrim. intros Hin. apply Hsame in Hin.
    apply includes_In in Hin. congruence. }
  assert (Hne : JsString.trim n <> "").
  { intros E. apply trim_empty_iff in E. congruence. }
  assert (Hnames : Forall (fun c => Category.setName (Category.name c) = Category.name c)
                          (categories db)).
  { eapply Forall_impl; [|exact Hnorm]. intros c [H _]. exact H. }
  rewrite (createCategory_fresh env db n Hnames Hne Hfresh). cbn [fst snd].
  intros v.
  cbn [Page.categories Page.setView Page.setCategories Page.setNewCategory
       Page.setIsCategoryDialogOpen categories withCategories].
  rewrite map_app, !in_app_iff. simpl.
  rewrite setName_toLowerCase, Htrim. rewrite (Hsame v). tauto.
Qed.

End PageFacts.

(** ** Loading, toggling and deleting *)

Section HandlerFacts.

Import Spec PageSpec Store.

Variable tasksGet : Db -> Db * Api.Result (list Task.t).
Variable tasksPatch : Db -> string -> PartialTaskDto.t -> Db * Api.Result Task.t.
Variable tasksDelete : Db -> string -> Db * Api.Result unit.





(** X21: when the task request of the mount effect fails, the view keeps
    its tasks and its tabs, shows the load error, stops loading and raises
    an error toast. *)
Theorem loadData_failed (db db1 : Db) (s : Page.State) (status : Z) :
  tasksGet db = (db1, Api.Throw status) ->
  exists s' toast,
    Page.loadData tasksGet (db, s) = ((db1, s'), Some toast) /\
    App.destructive toast = true /\
    Page.tasks s' = Page.tasks s /\
    Page.categories s' = Page.categories s /\
    Page.error s' = Some Page.loadFailed /\
    Page.loading s' = false.
Proof.
  intros Hget. unfold Page.loadData, Page.fetchTasks. rewrite Hget.
  unfold Api.fetchCategories, CategoryRoutes.get.
  cbn [CategoryRoutes.status CategoryRoutes.body].
  change (Api.succeeded 200) with true. cbv iota.
  eexists. eexists. split; [reflexivity|]. repeat split.
Qed.

(** X22: [handleDeleteTask] takes a task off the view only when the server
    has confirmed: then the tasks with that identifier are gone, the others
    stay as they were, in order, and no tab or search shows the identifier
    again; after a failed request the tasks are what they were. *)
Theorem handleDeleteTask_tasks (db : Db) (s : Page.State) (id : string) :
  let s' := snd (fst (Page.handleDeleteTask tasksDelete id (db, s))) in
  match snd (tasksDelete db id) with
  | Api.Ok _ =>
      KeptInOrder (fun task => Task._id task <> id) (Page.tasks s) (Page.tasks s') /\
      forall tab q task,
        In task (App.filteredTasks (Page.tasks s') tab q) -> Task._id task <> id
  | Api.Throw _ => Page.tasks s' = Page.tasks s
  end.
Proof.
  unfold Page.handleDeleteTask, Page.deleteTask.
  destruct (tasksDelete db id) as [db' [u | status]]; cbn [fst snd]; [|reflexivity].
  assert (K : KeptInOrder (fun task => Task._id task <> id) (Page.tasks s)
                (filter (fun task => negb (String.eqb (Task._id task) id))
                        (Page.tasks s))).
  { apply filter_KeptInOrder. intros task.
    rewrite negb_true_iff. apply String.eqb_neq. }
  split; [exact K|].
  intros tab q task Hin. unfold App.filteredTasks in Hin.
  apply filter_In in Hin as [Hin _].
  apply (KeptInOrder_In _ _ _ K). exact Hin.
Qed.

(** X23: [toggleTaskCompletion] asks for the completion flag alone to be
    set to its negation; when the server answers with the updated task, that
    task takes the place of every task of the identifier and each other
    task stays where it is; after a failed request the tasks are what they
    were. *)
Theorem toggleTaskCompletion_tasks (db : Db) (s : Page.State) (id : string)
    (completed : bool) :
  let s' := snd (fst (Page.toggleTaskCompletion tasksPatch id completed (db, s))) in
  let sent := PartialTaskDto.mk None None (Some (negb completed)) None None None in
  match snd (tasksPatch db id sent) with
  | Api.Ok updatedTask =>
      List.length (Page.tasks s') = List.length (Page.tasks s) /\
      forall k task,
        nth_error (Page.tasks s) k = Some task ->
        nth_error (Page.tasks s') k
        = Some (if String.eqb (Task._id task) id then updatedTask else task)
  | Api.Throw _ => Page.tasks s' = Page.tasks s
  end.
Proof.
  unfold Page.toggleTaskCompletion, Page.updateTask.
  destruct (tasksPatch db id _) as [db' [u | status]]; cbn [fst snd]; [|reflexivity].
  rewrite withDates_id.
  unfold Page.tasks. cbn [Page.view Page.setView App.tasks App.setTasks].
  split; [apply length_map|].
  intros k task Hk. rewrite nth_error_map, Hk. reflexivity.
Qed.

(** X24: [saveEditedTask] sends nothing when no task is being edited or
    when the edited title is empty or all white space: store and state stay
    as they are. *)
Theorem saveEditedTask_nothing_sent (db : Db) (s : App.State) :
  match App.editingTask s with
  | None => True
  | Some editing => isBlank (Task.title editing) = true
  end ->
  fst (App.saveEditedTask (db, s)) = (db, s).
Proof.
  unfold App.saveEditedTask.
  destruct (App.editingTask s) as [editing|]; [|reflexivity].
  intros H. rewrite blank_not_truthy, H. reflexivity.
Qed.

End HandlerFacts.

(** ** The further properties at work on sample data *)

Section MoreInstances.

Import Spec PageSpec Store CategoryRoutes.


Lemma inRange_sample (t : Z) :
  (Z.abs t <=? JsDate.maxTimeValue) = true -> inRange t.
Proof. unfold inRange. intros H. now apply Z.leb_le. Qed.

Lemma getDueDateStatus_thresholds_witness :
  App.getDueDateStatus JsDate.newYork2024 Sample.noonNov2
    (Some (JsDate.DateAt Sample.midnightNov4)) = Some App.Future <->
  48 * 3600000
  < localMidnight JsDate.newYork2024 Sample.midnightNov4
    - localMidnight JsDate.newYork2024 Sample.noonNov2.
Proof.
  refine (proj2 (proj2 (proj2
            (getDueDateStatus_thresholds JsDate.newYork2024
               Sample.noonNov2 Sample.midnightNov4 _ _ _))));
    apply inRange_sample; vm_compute; reflexivity.
Defined.

Lemma getDueDateStatus_time_of_day_witness :
  App.getDueDateStatus JsDate.newYork2024 Sample.noonNov2
    (Some (JsDate.DateAt Sample.midnightNov4))
  = App.getDueDateStatus JsDate.newYork2024 (Sample.noonNov2 + 5 * Fixture.hour)
      (Some (JsDate.DateAt (Sample.midnightNov4 + 23 * Fixture.hour))).
Proof.
  apply (getDueDateStatus_time_of_day JsDate.newYork2024).
  - apply inRange_sample; vm_compute; reflexivity.
  - apply inRange_sample; vm_compute; reflexivity.
  - vm_compute; reflexivity.
  - vm_compute; reflexivity.
Defined.

Lemma getDueDateStatus_fixedZone_witness :
  App.getDueDateStatus (JsDate.fixedZone (2 * Fixture.hour)) Sample.todayJan10
    (Some (JsDate.DateAt (Sample.jan 12)))
  = Some App.Soon.
Proof.
  rewrite (getDueDateStatus_fixedZone (2 * Fixture.hour) Sample.todayJan10
             (Sample.jan 12)).
  - vm_compute; reflexivity.
  - apply inRange_sample; vm_compute; reflexivity.
  - apply inRange_sample; vm_compute; reflexivity.
  - apply inRange_sample; vm_compute; reflexivity.
Defined.

Lemma post_blank_witness :
  exists text,
    post false Sample.env1 Sample.withWork (Some "   ")
    = (Sample.withWork, mkResponse 400 (message text)).
Proof.
  apply (post_blank false Sample.env1 Sample.withWork "   "). reflexivity.
Defined.

Lemma delete_absent_witness :
  delete true Sample.withWork "Home"
  = (Sample.withWork, mkResponse 404 (message "Category not found")).
Proof.
  apply (delete_absent true Sample.withWork "Home").
  - simpl. intros [H|[]]. discriminate H.
  - simpl. intros [H|[]]. discriminate H.
Defined.

Lemma delete_present_witness :
  exists l1 l2,
    categories Sample.withWork = (l1 ++ Sample.work :: l2)%list /\
    delete false Sample.withWork "WORK"
    = (withCategories Sample.withWork (l1 ++ l2),
       mkResponse 200 (message "Category deleted")) /\
    ~ In (JsString.toLowerCase "WORK") (map Category.name (l1 ++ l2)).
Proof.
  apply (delete_present false Sample.withWork "WORK" Sample.work).
  - repeat constructor. simpl. tauto.
  - repeat constructor. simpl. tauto.
  - reflexivity.
  - simpl. auto.
  - reflexivity.
Defined.

Lemma post_then_delete_witness :
  delete true
    (fst (post true Sample.env1 Sample.withWork (Some "Home")))
    "Home"
  = (Sample.withWork, mkResponse 200 (message "Category deleted")).
Proof.
  apply (post_then_delete true Sample.env1 Sample.withWork _ "Home"
           (snd (post true Sample.env1 Sample.withWork (Some "Home")))).
  - reflexivity.
  - reflexivity.
  - reflexivity.
  - simpl. intros [H|[]]. discriminate H.
Defined.

Lemma post_then_get_witness :
  exists items,
    get (fst (post true Sample.env1 Sample.withWork (Some " Home")))
    = (fst (post true Sample.env1 Sample.withWork (Some " Home")),
       mkResponse 200 (JArray items)) /\
    In (JString "home") items.
Proof.
  apply (post_then_get true Sample.env1 Sample.withWork _ " Home"
           (snd (post true Sample.env1 Sample.withWork (Some " Home"))));
    reflexivity.
Defined.

Lemma post_twice_witness :
  exists text,
    post false Sample.env2
      (fst (post false Sample.env1 Sample.emptyDb (Some "Home"))) (Some " HOME ")
    = (fst (post false Sample.env1 Sample.emptyDb (Some "Home")),
       mkResponse 400 (message text)).
Proof.
  apply (post_twice false Sample.env1 Sample.env2 Sample.emptyDb _ "Home" " HOME "
           (snd (post false Sample.env1 Sample.emptyDb (Some "Home"))));
    reflexivity.
Defined.

Lemma reachable_get_names_witness :
  exists names,
    get (fst (handle false Sample.emptyDb (POST Sample.env1 (Some "Work"))))
    = (fst (handle false Sample.emptyDb (POST Sample.env1 (Some "Work"))),
       mkResponse 200 (JArray (map JString names))) /\
    NoDup names /\
    Forall (fun v => JsString.toLowerCase v = v /\ JsString.trim v = v /\ v <> "")
           names.
Proof.
  apply (reachable_get_names false).
  apply reachable_step. exact (reachable_init false []).
Defined.

Lemma handleAddCategory_refuses_witness :
  exists toast,
    Page.handleAddCategory true Sample.env1 (Sample.withWork, Fixture.typing "Work")
    = ((Sample.withWork, Fixture.typing "Work"), Some toast) /\
    App.destructive toast = true.
Proof.
  apply (handleAddCategory_refuses true Sample.env1 Sample.withWork
           (Fixture.typing "Work")).
  right. simpl. auto.
Defined.

Lemma handleAddCategory_NoDup_witness :
  NoDup (Page.categories
           (snd (fst (Page.handleAddCategory true Sample.env1
                        (Sample.withWork, Fixture.typing "Home"))))).
Proof.
  apply (handleAddCategory_NoDup true Sample.env1 Sample.withWork
           (Fixture.typing "Home")).
  repeat constructor. simpl. tauto.
Defined.

Lemma handleAddCategory_sameNames_witness :
  sameNames
    (snd (fst (Page.handleAddCategory false Sample.env1
                 (Sample.withWork, Fixture.typing "Home"))))
    (fst (fst (Page.handleAddCategory false Sample.env1
                 (Sample.withWork, Fixture.typing "Home")))).
Proof.
  apply (handleAddCategory_sameNames false Sample.env1 Sample.withWork
           (Fixture.typing "Home")).
  - repeat constructor. discriminate.
  - intros v. simpl. tauto.
  - reflexivity.
Defined.


Lemma loadData_failed_witness :
  exists s' toast,
    Page.loadData (Fixture.down 500) (Sample.withWork, Page.initialState)
    = ((Sample.withWork, s'), Some toast) /\
    Page.categories s' = Page.defaultCategories /\
    Page.error s' = Some Page.loadFailed.
Proof.
  destruct (loadData_failed (Fixture.down 500) Sample.withWork Sample.withWork
              Page.initialState 500 eq_refl)
    as [s' [toast [H [_ [_ [Hc [He _]]]]]]].
  exists s', toast. repeat split; assumption.
Defined.

Lemma saveEditedTask_nothing_sent_witness :
  fst (App.saveEditedTask
         (Sample.withWork,
          App.setEditingTask
            (Some (Task.mk "t1" "  " "" false Task.high None Sample.epoch "work"))
            App.initialState))
  = (Sample.withWork,
     App.setEditingTask
       (Some (Task.mk "t1" "  " "" false Task.high None Sample.epoch "work"))
       App.initialState).
Proof.
  apply (saveEditedTask_nothing_sent Sample.withWork
           (App.setEditingTask
              (Some (Task.mk "t1" "  " "" false Task.high None Sample.epoch "work"))
              App.initialState)).
  reflexivity.
Defined.

End MoreInstances.
